(** * lib.reviews: form submission parsing and the FormHandler dispatcher

    A shallow embedding of [routes/helpers/forms.js] and
    [routes/handlers/form-handler.js].  JavaScript objects used as
    dictionaries (the request body, [formValues]) are finite maps,
    exceptions are an explicit result type, and the effects of the two
    modules (queued flash messages, array objects that are pushed to,
    rendering, calls to the configured callbacks) are threaded through
    explicit state. *)

From Stdlib Require Import String List ZArith Bool Ascii Lia.
From stdpp Require Import base option list gmap strings pretty.

Import ListNotations.
Set Warnings "-register-all".

(** ** JavaScript values and errors *)

Module Js.

Inductive JsVal : Type :=
| JUndefined
| JNull
| JBool (b : bool)
| JNum (n : Z)
| JNaN
| JStr (s : string)
| JArr (xs : list JsVal)
| JObj (props : list (string * JsVal)).

(** ToBoolean: what [!v] and [Boolean(v)] look at. *)
Definition truthy (v : JsVal) : bool :=
  match v with
  | JUndefined | JNull | JNaN => false
  | JBool b => b
  | JNum n => negb (n =? 0)%Z
  | JStr s => negb (String.eqb s EmptyString)
  | JArr _ | JObj _ => true
  end.

(** Property read [o[k]] on an object literal; a missing property reads
    as [undefined], and so does a property of a primitive. *)
Fixpoint assoc (k : string) (props : list (string * JsVal)) : JsVal :=
  match props with
  | [] => JUndefined
  | (k', v) :: rest => if String.eqb k k' then v else assoc k rest
  end.

Definition get (v : JsVal) (k : string) : JsVal :=
  match v with
  | JObj props => assoc k props
  | _ => JUndefined
  end.

(** ToString, as used when a value serves as a property key. *)
Fixpoint to_string (v : JsVal) : string :=
  match v with
  | JUndefined => "undefined"
  | JNull => "null"
  | JBool true => "true"
  | JBool false => "false"
  | JNum n => pretty n
  | JNaN => "NaN"
  | JStr s => s
  | JArr xs =>
      (fix join (l : list JsVal) : string :=
         match l with
         | [] => EmptyString
         | x :: rest =>
             let sx := match x with
                       | JUndefined | JNull => EmptyString
                       | _ => to_string x
                       end in
             match rest with
             | [] => sx
             | _ :: _ => sx +:+ "," +:+ join rest
             end
         end) xs
  | JObj _ => "[object Object]"
  end.

(** An optional string used as a computed property key: [undefined]
    becomes the key "undefined". *)
Definition prop_key (o : option string) : string :=
  match o with
  | Some s => s
  | None => "undefined"
  end.

Definition digit_of (c : ascii) : option N :=
  let n := N_of_ascii c in
  if ((48 <=? n) && (n <=? 57))%N then Some (n - 48)%N else None.

Fixpoint parse_digits (acc : N) (s : string) : option N :=
  match s with
  | EmptyString => Some acc
  | String c rest =>
      match digit_of c with
      | Some d => parse_digits (acc * 10 + d)%N rest
      | None => None
      end
  end.

(** A property key addresses an array element when it is the canonical
    decimal form of an index ("0", "7", "12"; not "07", not the empty
    key). *)
Definition array_index (k : string) : option nat :=
  match k with
  | EmptyString => None
  | _ =>
      match parse_digits 0 k with
      | Some n => if String.eqb (pretty n) k then Some (N.to_nat n) else None
      | None => None
      end
  end.

(** What a property read [arr[v]] on an array of objects finds: an
    element, a truthy value that is not an element (a method the array
    inherits, or its nonzero [length]), or a falsy value ([undefined], or
    the [length] 0). *)
Inductive Member (A : Type) : Type :=
| Element (a : A)
| NotAnElement
| Falsy.
Arguments Element {A} a.
Arguments NotAnElement {A}.
Arguments Falsy {A}.

(** Property read [arr[v]].  [inherits] tells which names the engine
    resolves on the prototype chain of an array ([map], [constructor],
    [toString], ...). *)
Definition array_get {A : Type} (inherits : string -> bool) (arr : list A)
    (v : JsVal) : Member A :=
  let k := to_string v in
  match array_index k with
  | Some i =>
      match arr !! i with
      | Some a => Element a
      | None => Falsy
      end
  | None =>
      if String.eqb k "length" then
        match arr with
        | [] => Falsy
        | _ :: _ => NotAnElement
        end
      else if inherits k then NotAnElement
      else Falsy
  end.

(** [Array.prototype.indexOf], with [None] for -1. *)
Fixpoint indexOf (l : list string) (x : string) : option nat :=
  match l with
  | [] => None
  | y :: rest =>
      if String.eqb y x then Some 0
      else match indexOf rest x with
           | Some i => Some (S i)
           | None => None
           end
  end.

(** [arr.splice(k, 1)]: drop the element at position [k]. *)
Definition splice1 (k : nat) (l : list string) : list string :=
  take k l ++ drop (S k) l.

Record JsError := mkError { err_name : string; err_message : string }.

Definition Error (msg : string) : JsError := mkError "Error" msg.
Definition TypeError (msg : string) : JsError := mkError "TypeError" msg.

Inductive Res (A : Type) : Type :=
| Ok (a : A)
| Throw (e : JsError).
Arguments Ok {A} a.
Arguments Throw {A} e.

(** Code that may throw and that changes a state [S]; the state survives
    a throw, as it does in JavaScript. *)
Definition Eff (S A : Type) : Type := S -> Res A * S.

Definition ret {S A} (a : A) : Eff S A := fun st => (Ok a, st).

Definition throw {S A} (e : JsError) : Eff S A := fun st => (Throw e, st).

Definition bind {S A B} (m : Eff S A) (k : A -> Eff S B) : Eff S B :=
  fun st =>
    match m st with
    | (Ok a, st') => k a st'
    | (Throw e, st') => (Throw e, st')
    end.

(** [try { m } catch (e) { k e }], also a promise's [.catch(k)]. *)
Definition catch {S A} (m : Eff S A) (k : JsError -> Eff S A) : Eff S A :=
  fun st =>
    match m st with
    | (Ok a, st') => (Ok a, st')
    | (Throw e, st') => k e st'
    end.

Notation "x <- m ;; k" := (bind m (fun x => k))
  (at level 100, m at next level, right associativity).
Notation "m ;;; k" := (bind m (fun _ => k))
  (at level 100, right associativity).

End Js.
Import Js.

(** ** Collaborators outside the two modules

    [escape-html], the markdown renderer [util/md], [util/url-utils], the
    i18n function [req.__], the built-ins [Number], [encodeURI],
    [String.prototype.trim] and [String.prototype.toUpperCase], the names
    of the members an array inherits in the engine that runs the code,
    and the [questionCaptcha] section of the configuration are taken as
    given. *)

Record Captcha := { questionKey : string; answerKey : string }.

Record QuestionCaptcha := {
  forms : gmap string bool;
  captchas : list Captcha
}.

Class Externals := {
  escapeHTML : string -> string;
  md_render : string -> option string -> string;
  urlUtils_normalize : string -> string;
  encodeURI : string -> string;
  Number : string -> JsVal;
  trim : string -> string;
  toUpperCase : string -> string;
  i18n : option string -> string -> string;
  arrayInherits : string -> bool;
  questionCaptcha : QuestionCaptcha
}.

(** ** routes/helpers/forms.js *)

Module Forms.

Inductive FieldType :=
| TNumber | TUrl | TText | TMarkdown | TBoolean
| TOther.  (* no [type], or a type the switch does not list *)

(** One entry of a form definition. *)
Record Field := {
  name : string;
  key : option string;
  type : FieldType;
  required : bool;
  skipValue : bool;
  flat : bool;
  htmlKey : option string
}.

Record Request := {
  body : gmap string JsVal;
  locale : option string
}.

(** The options after [Object.assign] has merged the defaults.  [formDef]
    refers to the caller's array object.  [skipRequiredCheck] is an array
    of field names, so [!options.skipRequiredCheck] is false. *)
Record Options := {
  formDef : option nat;
  formKey : option string;
  language : option string;
  skipRequiredCheck : list string
}.

Record SubmissionResult := {
  hasRequiredFields : bool;
  hasUnknownFields : bool;
  hasCorrectCaptcha : option bool;   (* [None] is JavaScript's null *)
  formValues : gmap string JsVal
}.

(** What a call can change outside its own locals: the array objects that
    exist (addressed by position) and the flash messages queued on the
    request. *)
Record State := {
  arrays : list (list Field);
  flashed : list (string * string)
}.

Definition M : Type -> Type := Eff State.

(** [req.flash(bucket, msg)] *)
Definition flash (bucket msg : string) : M unit :=
  fun st => (Ok tt, {| arrays := arrays st; flashed := flashed st ++ [(bucket, msg)] |}).

(** [Object.assign([], src)]: a new array object holding the elements of
    [src] (none when [src] is undefined). *)
Definition copy_array (src : option nat) : M nat :=
  fun st =>
    let elems := match src with
                 | Some l => default [] (arrays st !! l)
                 | None => []
                 end in
    (Ok (length (arrays st)),
     {| arrays := arrays st ++ [elems]; flashed := flashed st |}).

(** [arr.push(x1, ..., xn)] *)
Definition push (l : nat) (xs : list Field) : M unit :=
  fun st =>
    (Ok tt, {| arrays := alter (fun a => a ++ xs) l (arrays st);
               flashed := flashed st |}).

Definition read_array (l : nat) : M (list Field) :=
  fun st => (Ok (default [] (arrays st !! l)), st).

(** [req.body[name]] *)
Definition body_get (req : Request) (n : string) : JsVal :=
  default JUndefined (body req !! n).

(** [v.trim()] for a value read from the body. *)
Definition call_trim `{Externals} (v : JsVal) : M string :=
  match v with
  | JStr s => ret (trim s)
  | JUndefined => throw (TypeError "Cannot read property 'trim' of undefined")
  | JNull => throw (TypeError "Cannot read property 'trim' of null")
  | _ => throw (TypeError "req.body[field.name].trim is not a function")
  end.

Section Parse.
Context `{Externals}.

(** [config.questionCaptcha.captchas[id]] *)
Definition captchaAt (id : JsVal) : Member Captcha :=
  array_get arrayInherits (captchas questionCaptcha) id.

(** When [captchas[id]] is truthy without being a captcha, the guard for
    an unknown captcha lets it pass; it has no [answerKey], the
    translation of an undefined phrase is undefined, and calling
    [toUpperCase] on that is a TypeError. *)
Definition processCaptchaAnswer (req : Request) : M bool :=
  let id := body_get req "captcha-id" in
  let answerText := body_get req "captcha-answer" in
  if negb (truthy answerText) then ret false
  else
    match captchaAt id with
    | Falsy =>
        flash "pageErrors" (i18n (locale req) "unknown captcha") ;;;
        ret false
    | Element captcha =>
        answer <- call_trim answerText ;;
        if negb (String.eqb (toUpperCase answer)
                   (toUpperCase (i18n (locale req) (answerKey captcha))))
        then flash "pageErrors" (i18n (locale req) "incorrect captcha answer") ;;;
             ret false
        else ret true
    | NotAnElement =>
        answer <- call_trim answerText ;;
        throw (TypeError "Cannot read property 'toUpperCase' of undefined")
    end.

(** The variables of [parseSubmission] that the loop over the fields
    updates. *)
Record Vars := {
  v_hasRequiredFields : bool;
  v_formValues : gmap string JsVal;
  v_processedKeys : list string
}.

(** [field.key || field.name] *)
Definition field_key (field : Field) : string :=
  match key field with
  | Some k => if String.eqb k EmptyString then name field else k
  | None => name field
  end.

(** [options.skipRequiredCheck.indexOf(field.name) != -1] *)
Definition exempted (options : Options) (field : Field) : bool :=
  match indexOf (skipRequiredCheck options) (name field) with
  | Some _ => true
  | None => false
  end.

(** [{ [options.language]: s }] *)
Definition ml (options : Options) (s : string) : JsVal :=
  JObj [(prop_key (language options), JStr s)].

(** The [switch (field.type)] of the loop body: the new [formValues]. *)
Definition transform (req : Request) (options : Options) (field : Field)
    (fv : gmap string JsVal) : M (gmap string JsVal) :=
  let k := field_key field in
  let v := body_get req (name field) in
  match type field with
  | TNumber =>
      s <- call_trim v ;;
      ret (<[k := Number s]> fv)
  | TUrl =>
      s <- call_trim v ;;
      let fv1 := <[k := JStr (urlUtils_normalize s)]> fv in
      ret (<[k := JStr (encodeURI (urlUtils_normalize s))]> fv1)
  | TText =>
      s <- call_trim v ;;
      ret (<[k := ml options (escapeHTML s)]> fv)
  | TMarkdown =>
      if negb (flat field) then
        s <- call_trim v ;;
        s' <- call_trim v ;;
        ret (<[k := JObj [("text", ml options (escapeHTML s));
                          ("html", ml options (md_render s' (locale req)))]]> fv)
      else
        s <- call_trim v ;;
        let fv1 := <[k := ml options (escapeHTML s)]> fv in
        s' <- call_trim v ;;
        ret (<[prop_key (htmlKey field) := ml options (md_render s' (locale req))]> fv1)
  | TBoolean => ret (<[k := JBool (truthy v)]> fv)
  | TOther => ret (<[k := v]> fv)
  end.

(** One iteration of [for (let field of formDef)]. *)
Definition processField (req : Request) (options : Options) (field : Field)
    (vars : Vars) : M Vars :=
  let keys :=
    match indexOf (v_processedKeys vars) (name field) with
    | Some k => splice1 k (v_processedKeys vars)
    | None => v_processedKeys vars
    end in
  if negb (exempted options field)
     && (negb (truthy (body_get req (name field))) && required field)
  then
    flash "pageErrors" (i18n (locale req) ("need " +:+ name field)) ;;;
    ret {| v_hasRequiredFields := false;
           v_formValues := v_formValues vars;
           v_processedKeys := keys |}
  else if skipValue field || exempted options field
  then
    ret {| v_hasRequiredFields := v_hasRequiredFields vars;
           v_formValues := v_formValues vars;
           v_processedKeys := keys |}
  else
    fv <- transform req options field (v_formValues vars) ;;
    ret {| v_hasRequiredFields := v_hasRequiredFields vars;
           v_formValues := fv;
           v_processedKeys := keys |}.

Fixpoint forOf (req : Request) (options : Options) (fields : list Field)
    (vars : Vars) : M Vars :=
  match fields with
  | [] => ret vars
  | field :: rest =>
      vars' <- processField req options field vars ;;
      forOf req options rest vars'
  end.

Definition csrfField : Field :=
  {| name := "_csrf"; key := None; type := TOther; required := true;
     skipValue := true; flat := false; htmlKey := None |}.

Definition captchaIdField : Field :=
  {| name := "captcha-id"; key := None; type := TOther; required := true;
     skipValue := false; flat := false; htmlKey := None |}.

Definition captchaAnswerField : Field :=
  {| name := "captcha-answer"; key := None; type := TOther; required := true;
     skipValue := false; flat := false; htmlKey := None |}.

(** [config.questionCaptcha.forms[formKey]] is truthy *)
Definition captchaEnabled (formKey : option string) : bool :=
  match forms questionCaptcha !! prop_key formKey with
  | Some b => b
  | None => false
  end.

Definition parseSubmission (req : Request) (options : Options)
    : M SubmissionResult :=
  formDef <- copy_array (formDef options) ;;
  let processedKeys := (map_to_list (body req)).*1 in
  push formDef [csrfField] ;;;
  hasCorrectCaptcha <-
    (if captchaEnabled (formKey options) then
       push formDef [captchaIdField; captchaAnswerField] ;;;
       b <- processCaptchaAnswer req ;;
       ret (Some b)
     else ret None) ;;
  fields <- read_array formDef ;;
  vars <- forOf req options fields
            {| v_hasRequiredFields := true;
               v_formValues := ∅;
               v_processedKeys := processedKeys |} ;;
  hasUnknownFields <-
    (match v_processedKeys vars with
     | [] => ret false
     | _ :: _ =>
         flash "pageErrors" (i18n (locale req) "unexpected form data") ;;;
         ret true
     end) ;;
  ret {| hasRequiredFields := v_hasRequiredFields vars;
         hasUnknownFields := hasUnknownFields;
         hasCorrectCaptcha := hasCorrectCaptcha;
         formValues := v_formValues vars |}.

(** The CAPTCHA check can run to its end: the answer is missing, or
    [captchas[id]] is falsy, or it is a captcha and the answer is a
    string. *)
Definition captchaCheckable (req : Request) : bool :=
  if truthy (body_get req "captcha-answer") then
    match captchaAt (body_get req "captcha-id") with
    | Falsy => true
    | Element _ =>
        match body_get req "captcha-answer" with
        | JStr _ => true
        | _ => false
        end
    | NotAnElement => false
    end
  else true.

(** The fields the loop runs over: the elements copied from the caller's
    array, then the fields that were pushed. *)
Definition implicitFields (options : Options) : list Field :=
  csrfField ::
  (if captchaEnabled (formKey options)
   then [captchaIdField; captchaAnswerField] else []).

Definition callerFields (options : Options) (st : State) : list Field :=
  match formDef options with
  | Some l => default [] (arrays st !! l)
  | None => []
  end.

Definition schema (options : Options) (st : State) : list Field :=
  callerFields options st ++ implicitFields options.

(** The state once the copy has been made and pushed to. *)
Definition pushed (options : Options) (st : State) : State :=
  {| arrays := arrays st ++ [schema options st]; flashed := flashed st |}.

Definition initialVars (req : Request) : Vars :=
  {| v_hasRequiredFields := true;
     v_formValues := ∅;
     v_processedKeys := (map_to_list (body req)).*1 |}.

(** The properties of [formValues] that an iteration for [field] may
    assign: none when the field is skipped by [skipValue] or by an
    exemption, else its key and, for flat markdown, its [htmlKey]. *)
Definition targets (options : Options) (field : Field) : list string :=
  if skipValue field || exempted options field then []
  else
    field_key field ::
    match type field with
    | TMarkdown => if flat field then [prop_key (htmlKey field)] else []
    | _ => []
    end.

(** The body holds, for [field], a value that its iteration can process:
    the field is skipped, or stopped by the required check, or its type
    does not call [trim], or the value is a string. *)
Definition processable (req : Request) (options : Options) (field : Field)
    : bool :=
  if skipValue field || exempted options field then true
  else if negb (truthy (body_get req (name field))) && required field then true
  else
    match type field with
    | TBoolean | TOther => true
    | _ => match body_get req (name field) with
           | JStr _ => true
           | _ => false
           end
    end.

End Parse.

(** *** What a call queues, and which fields it holds missing *)

Section Messages.
Context `{Externals}.

(** The test that stops a field at the required check: the field is not
    exempted, the body has no truthy value for it, and it is required. *)
Definition missingRequired (req : Request) (options : Options)
    (field : Field) : bool :=
  negb (exempted options field)
  && (negb (truthy (body_get req (name field))) && required field).

(** The message queued for a missing field. *)
Definition needMessage (req : Request) (field : Field) : string * string :=
  ("pageErrors", i18n (locale req) ("need " +:+ name field)).

Definition needMessages (req : Request) (options : Options)
    (fields : list Field) : list (string * string) :=
  map (needMessage req) (List.filter (missingRequired req options) fields).

(** What [processCaptchaAnswer] queues, read off a run that starts with
    nothing queued. *)
Definition captchaMessages (req : Request) : list (string * string) :=
  flashed (snd (processCaptchaAnswer req {| arrays := []; flashed := [] |})).

(** The message queued when the body has keys that no field names. *)
Definition unexpectedMessage (req : Request) : string * string :=
  ("pageErrors", i18n (locale req) "unexpected form data").

(** [processedKeys] after the iteration for a field named [n]. *)
Definition removeName (n : string) (keys : list string) : list string :=
  match indexOf keys n with
  | Some k => splice1 k keys
  | None => keys
  end.

(** [getQuestionCaptcha]; [draw] is the value of
    [Math.floor(Math.random() * config.questionCaptcha.captchas.length)].
    [None] is undefined; the captcha of the result is undefined when no
    captcha is configured at [draw]. *)
Definition getQuestionCaptcha (draw : nat) (formKey : option string)
    : option (nat * option Captcha) :=
  if captchaEnabled formKey
  then Some (draw, captchas questionCaptcha !! draw)
  else None.

End Messages.

End Forms.

(** ** app.js: [req.flashHasErrors] and the error-handling middleware *)

Module App.

(** [req.session.flash.errors]: the messages queued under "errors", in
    the order they were queued. *)
Definition flash_errors (st : Forms.State) : list string :=
  map snd (List.filter (fun m => String.eqb (fst m) "errors") (Forms.flashed st)).

(** The bucket is undefined until a message is queued under it; after
    that it is a nonempty array. *)
Definition flashHasErrors (st : Forms.State) : bool :=
  match flash_errors st with
  | [] => false
  | _ :: _ => true
  end.

(** *** The error-handling middleware *)








End App.

(** ** routes/handlers/form-handler.js *)

Module FormHandler.

Record User := { displayName : string; isTrusted : bool }.

(** The flags [userCan] reads from a resource. *)
Record Permissions := { userCanEdit : bool; userCanDelete : bool }.

(** The variables handed to a template. *)
Record RenderVars := {
  ctx_titleKey : option string;
  ctx_id : option string;
  ctx_detailsKey : option string
}.

(** Calls into [routes/helpers/render]. *)
Inductive Rendered :=
| Template (view : string) (vars : RenderVars)
| SigninRequired (vars : RenderVars)
| PermissionError (vars : RenderVars).

(** The request, the response and the continuation of the middleware:
    [req.user], the status set on [res], what was rendered, and the
    errors passed to [next]. *)
Record World := {
  user : option User;
  status : option Z;
  rendered : list Rendered;
  forwarded : list JsError
}.

(** A loaded resource, as far as the handler looks at it: the object
    that the loader resolved to, which is also the object handed to the
    permission check and to the verb handler.  [populateUserInfo u] is
    the call [data.populateUserInfo(u)], a method of the resource's
    model: like the loader and the verb handlers it may act on the
    request and the response and it may throw; when it returns, its
    result here is the pair of flags that are on the object from then
    on, which is what [userCan] reads next. *)
Record Resource := {
  _revDeleted : bool;
  populateUserInfo : option User -> Eff World Permissions
}.

(** The settled promise of a data loader. *)
Inductive Promise :=
| Resolved (data : option Resource)   (* [None]: resolved to undefined *)
| Rejected (error : JsError).

Inductive Check :=
| userIsSignedIn
| userIsTrusted
| customCheck (f : Eff World bool).

Inductive PermissionCheck :=
| userCanEdit'
| userCanDelete'
| customPermissionCheck (f : Resource -> Eff World bool).

Definition VerbHandler : Type := option Resource -> Eff World unit.

Definition Loader : Type := Eff World Promise.

(** The request methods Express hands over in [req.method]. *)
Inductive Method := Get | Post | Put | Patch | Delete | Head | Options.

Record ActionSpec := {
  GET : option VerbHandler;
  POST : option VerbHandler;
  preFlightChecks : list Check;
  loadData : option Loader;
  resourcePermissionCheck : option PermissionCheck;
  titleKey : option string
}.

Record Actions := { create : ActionSpec; edit : ActionSpec; delete : ActionSpec }.

(** A handler at the time [execute] is called: the table of actions as
    the constructor, the subclass and [addPreFlightCheck] left it, and
    the properties of [this] that [execute] reads. *)
Record FormHandler := {
  actions : Actions;
  documentNotFoundTemplate : string;
  documentNotFoundTitleKey : string;
  action : string;
  method : Method;
  id : option string;
  this_type : option string;       (* [this.type]; the class does not assign it *)
  this_loadData : option Loader    (* [this.loadData] *)
}.

(** [Object.keys(this.actions)] *)
Definition action_names : list string := ["create"; "edit"; "delete"].

(** [this.actions[a]] for an [a] that [Object.keys(this.actions)] lists;
    [None] when [indexOf] gives -1. *)
Definition actions_get (t : Actions) (a : string) : option ActionSpec :=
  match indexOf action_names a with
  | Some 0 => Some (create t)
  | Some 1 => Some (edit t)
  | Some 2 => Some (delete t)
  | _ => None
  end.

(** [spec[method]] when it is a function: of the properties of an action,
    only [GET] and [POST] are named like a request method. *)
Definition verb (spec : ActionSpec) (m : Method) : option VerbHandler :=
  match m with
  | Get => GET spec
  | Post => POST spec
  | _ => None
  end.

(** What [execute] calls, in order. *)
Inductive Call :=
| CallCheck (i : nat) (returned : option bool)   (* [None]: it threw *)
| CallLoad
| CallPermissionCheck
| CallVerb (data : option Resource).

Record Run := { calls : list Call; world : World }.

Definition M : Type -> Type := Eff Run.

(** Run a callback on the world and note the call. *)
Definition invoke {A} (label : Res A -> Call) (f : Eff World A) : M A :=
  fun r =>
    let (res, w') := f (world r) in
    (res, {| calls := calls r ++ [label res]; world := w' |}).

(** Code of the handler itself acting on the world. *)
Definition act {A} (f : Eff World A) : M A :=
  fun r => let (res, w') := f (world r) in (res, {| calls := calls r; world := w' |}).

Definition render (what : Rendered) : Eff World unit :=
  fun w => (Ok tt, {| user := user w; status := status w;
                      rendered := rendered w ++ [what];
                      forwarded := forwarded w |}).

Definition res_status (code : Z) : Eff World unit :=
  fun w => (Ok tt, {| user := user w; status := Some code;
                      rendered := rendered w;
                      forwarded := forwarded w |}).

Definition next (e : JsError) : Eff World unit :=
  fun w => (Ok tt, {| user := user w; status := status w;
                      rendered := rendered w;
                      forwarded := forwarded w ++ [e] |}).

(** [this.actions[this.action].titleKey] *)
Definition current_titleKey (h : FormHandler) : Eff World (option string) :=
  match actions_get (actions h) (action h) with
  | Some spec => ret (titleKey spec)
  | None => throw (TypeError "Cannot read property 'titleKey' of undefined")
  end.

Definition run_userIsSignedIn (h : FormHandler) : Eff World bool :=
  fun w =>
    match user w with
    | None =>
        (t <- current_titleKey h ;;
         render (SigninRequired {| ctx_titleKey := t; ctx_id := None;
                                   ctx_detailsKey := None |}) ;;;
         ret false) w
    | Some _ => (Ok true, w)
    end.

Definition run_userIsTrusted (h : FormHandler) : Eff World bool :=
  fun w =>
    match user w with
    | Some u =>
        if isTrusted u then (Ok true, w)
        else
          (t <- current_titleKey h ;;
           render (PermissionError {| ctx_titleKey := t; ctx_id := None;
                                      ctx_detailsKey := Some "must be trusted" |}) ;;;
           ret false) w
    | None =>
        (t <- current_titleKey h ;;
         render (PermissionError {| ctx_titleKey := t; ctx_id := None;
                                    ctx_detailsKey := Some "must be trusted" |}) ;;;
         ret false) w
    end.

Definition userCan (h : FormHandler) (what : string) (data : Resource)
    : Eff World bool :=
  fun w =>
    (p <- populateUserInfo data (user w) ;;
     if String.eqb what "edit" && userCanEdit p then ret true
     else if String.eqb what "delete" && userCanDelete p then ret true
     else
       t <- current_titleKey h ;;
       render (PermissionError {| ctx_titleKey := t; ctx_id := None;
                                  ctx_detailsKey := None |}) ;;;
       ret false) w.

(** [check.call(this)] *)
Definition run_check (h : FormHandler) (c : Check) : Eff World bool :=
  match c with
  | userIsSignedIn => run_userIsSignedIn h
  | userIsTrusted => run_userIsTrusted h
  | customCheck f => f
  end.

(** [check.call(this, data)] *)
Definition run_permissionCheck (h : FormHandler) (c : PermissionCheck)
    (data : Resource) : Eff World bool :=
  match c with
  | userCanEdit' => userCan h "edit" data
  | userCanDelete' => userCan h "delete" data
  | customPermissionCheck f => f data
  end.

Definition returned_of (r : Res bool) : option bool :=
  match r with
  | Ok b => Some b
  | Throw _ => None
  end.

(** The loop over the pre-flight checks; [i] counts the checks already
    run. *)
Fixpoint runChecks (h : FormHandler) (checks : list Check) (i : nat)
    (mayProceed : bool) : M bool :=
  match checks with
  | [] => ret mayProceed
  | check :: rest =>
      result <- invoke (fun r => CallCheck i (returned_of r)) (run_check h check) ;;
      runChecks h rest (S i) (if negb result then false else mayProceed)
  end.

(** The callback given to [.then]. *)
Definition onFulfilled (h : FormHandler) (spec : ActionSpec)
    (handler : VerbHandler) (data : option Resource) : M unit :=
  match data with
  | None => throw (TypeError "Cannot read property '_revDeleted' of undefined")
  | Some d =>
      if _revDeleted d then throw (Error "deleted")
      else
        allowed <-
          match resourcePermissionCheck spec with
          | None => ret true
          | Some c => invoke (fun _ => CallPermissionCheck) (run_permissionCheck h c d)
          end ;;
        if allowed
        then invoke (fun _ => CallVerb (Some d)) (handler (Some d))
        else ret tt
  end.

(** The callback given to [.catch]. *)
Definition onRejected (h : FormHandler) (error : JsError) : M unit :=
  if String.eqb (err_name error) "DocumentNotFoundError"
     || String.eqb (err_message error) "deleted"
  then
    act (res_status 404) ;;;
    act (render (Template (documentNotFoundTemplate h)
                   {| ctx_titleKey := Some (documentNotFoundTitleKey h);
                      ctx_id := id h;
                      ctx_detailsKey := None |}))
  else act (next error).

(** What [execute] does once the pre-flight checks have passed, followed
    through to the settling of the loader's promise. *)
Definition dispatch (h : FormHandler) (spec : ActionSpec)
    (handler : VerbHandler) : M unit :=
  match loadData spec with
  | None => invoke (fun _ => CallVerb None) (handler None)
  | Some _ =>
      match this_loadData h with
      | None => throw (TypeError "this.loadData is not a function")
      | Some load =>
          promise <- invoke (fun _ => CallLoad) load ;;
          match promise with
          | Resolved data =>
              catch (onFulfilled h spec handler data) (onRejected h)
          | Rejected error => onRejected h error
          end
      end
  end.

Definition execute (h : FormHandler) : M unit :=
  match actions_get (actions h) (action h) with
  | None =>
      throw (Error ("Did not recognize form action: " +:+ prop_key (this_type h)))
  | Some spec =>
      match verb spec (method h) with
      | None => throw (Error "No defined handler for this method.")
      | Some handler =>
          mayProceed <- runChecks h (preFlightChecks spec) 0 true ;;
          if negb mayProceed then ret tt
          else dispatch h spec handler
      end
  end.

(** [addPreFlightCheck]: the check is pushed onto the list of every
    action. *)
Definition addCheck (check : Check) (spec : ActionSpec) : ActionSpec :=
  {| GET := GET spec; POST := POST spec;
     preFlightChecks := preFlightChecks spec ++ [check];
     loadData := loadData spec;
     resourcePermissionCheck := resourcePermissionCheck spec;
     titleKey := titleKey spec |}.

Definition addPreFlightCheck (h : FormHandler) (check : Check) : FormHandler :=
  {| actions := {| create := addCheck check (create (actions h));
                   edit := addCheck check (edit (actions h));
                   delete := addCheck check (delete (actions h)) |};
     documentNotFoundTemplate := documentNotFoundTemplate h;
     documentNotFoundTitleKey := documentNotFoundTitleKey h;
     action := action h;
     method := method h;
     id := id h;
     this_type := this_type h;
     this_loadData := this_loadData h |}.

Definition start (w : World) : Run := {| calls := []; world := w |}.

(** The calls of checks number [i], [i + 1], ... that returned
    [results]. *)
Fixpoint check_calls (i : nat) (results : list bool) : list Call :=
  match results with
  | [] => []
  | b :: rest => CallCheck i (Some b) :: check_calls (S i) rest
  end.

Definition isCheck (c : Call) : bool :=
  match c with
  | CallCheck _ _ => true
  | _ => false
  end.

(** *** The outcomes of the [.catch] callback *)

(** The test of the [.catch] callback. *)
Definition isNotFound (error : JsError) : bool :=
  String.eqb (err_name error) "DocumentNotFoundError"
  || String.eqb (err_message error) "deleted".

(** The world after the 404 page was rendered. *)
Definition notFoundPage (h : FormHandler) (w : World) : World :=
  {| user := user w;
     status := Some 404%Z;
     rendered :=
       rendered w ++
       [Template (documentNotFoundTemplate h)
          {| ctx_titleKey := Some (documentNotFoundTitleKey h);
             ctx_id := id h;
             ctx_detailsKey := None |}];
     forwarded := forwarded w |}.

(** The world after [next(error)]. *)
Definition passedOn (error : JsError) (w : World) : World :=
  {| user := user w; status := status w; rendered := rendered w;
     forwarded := forwarded w ++ [error] |}.

Definition settled (h : FormHandler) (error : JsError) (w : World) : World :=
  if isNotFound error then notFoundPage h w else passedOn error w.


(** The pre-flight checks [checks], called one after the other from the
    world [w], each in the world the one before left, returned [results]
    and left the world [w']: none of them threw. *)
Inductive Checked (h : FormHandler)
    : list Check -> World -> list bool -> World -> Prop :=
| Checked_nil (w : World) : Checked h [] w [] w
| Checked_cons (check : Check) (rest : list Check) (w w1 w' : World)
    (result : bool) (results : list bool) :
    run_check h check w = (Ok result, w1) ->
    Checked h rest w1 results w' ->
    Checked h (check :: rest) w (result :: results) w'.

End FormHandler.

(** ** A concrete environment and sample inputs

    ASCII versions of the collaborators, used to run the definitions on
    concrete requests. *)

Module Sample.

Definition is_space (c : ascii) : bool :=
  let n := N_of_ascii c in
  ((n =? 32) || ((9 <=? n) && (n <=? 13)))%N.

Fixpoint drop_spaces (l : list ascii) : list ascii :=
  match l with
  | [] => []
  | c :: rest => if is_space c then drop_spaces rest else l
  end.

Definition ascii_trim (s : string) : string :=
  string_of_list_ascii
    (rev (drop_spaces (rev (drop_spaces (list_ascii_of_string s))))).

Definition upper_char (c : ascii) : ascii :=
  let n := N_of_ascii c in
  if ((97 <=? n) && (n <=? 122))%N then ascii_of_N (n - 32) else c.

Fixpoint ascii_upper (s : string) : string :=
  match s with
  | EmptyString => EmptyString
  | String c rest => String (upper_char c) (ascii_upper rest)
  end.

Fixpoint escape (s : string) : string :=
  match s with
  | EmptyString => EmptyString
  | String c rest =>
      let n := N_of_ascii c in
      (if (n =? 38)%N then "&amp;"
       else if (n =? 60)%N then "&lt;"
       else if (n =? 62)%N then "&gt;"
       else if (n =? 34)%N then "&quot;"
       else if (n =? 39)%N then "&#39;"
       else String c EmptyString) +:+ escape rest
  end.

Definition paragraph (s : string) (language : option string) : string :=
  "<p>" +:+ s +:+ "</p>".

Fixpoint percent_spaces (s : string) : string :=
  match s with
  | EmptyString => EmptyString
  | String c rest =>
      (if (N_of_ascii c =? 32)%N then "%20" else String c EmptyString)
      +:+ percent_spaces rest
  end.

Definition to_number (s : string) : JsVal :=
  match parse_digits 0 s with
  | Some n => JNum (Z.of_N n)
  | None => JNaN
  end.

Definition messages (locale : option string) (phrase : string) : string :=
  if String.eqb phrase "capital of france answer" then "Paris" else phrase.

Definition config : QuestionCaptcha :=
  {| forms := {[ "new-review" := true ]};
     captchas := [ {| questionKey := "capital of france";
                      answerKey := "capital of france answer" |} ] |}.

(** The members of [Array.prototype] and [Object.prototype] in an
    ECMAScript 2015 engine. *)
Definition prototypeNames : list string :=
  ["constructor"; "concat"; "copyWithin"; "entries"; "every"; "fill";
   "filter"; "find"; "findIndex"; "forEach"; "indexOf"; "join"; "keys";
   "lastIndexOf"; "map"; "pop"; "push"; "reduce"; "reduceRight";
   "reverse"; "shift"; "slice"; "some"; "sort"; "splice";
   "toLocaleString"; "toString"; "unshift"; "values";
   "hasOwnProperty"; "isPrototypeOf"; "propertyIsEnumerable"; "valueOf";
   "__defineGetter__"; "__defineSetter__"; "__lookupGetter__";
   "__lookupSetter__"; "__proto__"].

Definition inPrototype (k : string) : bool :=
  match indexOf prototypeNames k with
  | Some _ => true
  | None => false
  end.

#[export] Instance externals : Externals :=
  {| escapeHTML := escape;
     md_render := paragraph;
     urlUtils_normalize := fun s => s;
     encodeURI := percent_spaces;
     Number := to_number;
     trim := ascii_trim;
     toUpperCase := ascii_upper;
     i18n := messages;
     arrayInherits := inPrototype;
     questionCaptcha := config |}.

(** *** A review form and some submissions *)

Import Forms.

Definition titleField : Field :=
  {| name := "review-title"; key := Some "title"; type := TText;
     required := true; skipValue := false; flat := false; htmlKey := None |}.

Definition textField : Field :=
  {| name := "review-text"; key := Some "text"; type := TMarkdown;
     required := true; skipValue := false; flat := false; htmlKey := None |}.

Definition recommendField : Field :=
  {| name := "review-recommend"; key := Some "recommend"; type := TBoolean;
     required := false; skipValue := false; flat := false; htmlKey := None |}.

Definition summaryField : Field :=
  {| name := "review-summary"; key := Some "summary"; type := TMarkdown;
     required := false; skipValue := false; flat := true;
     htmlKey := Some "summaryHtml" |}.

(** A markdown field that is only checked for presence. *)
Definition notesField : Field :=
  {| name := "review-notes"; key := None; type := TMarkdown;
     required := false; skipValue := true; flat := false; htmlKey := None |}.

Definition reviewFields : list Field :=
  [titleField; textField; recommendField; summaryField].

(** The store in which the caller's form definition is array 0. *)
Definition reviewState : State :=
  {| arrays := [reviewFields]; flashed := [] |}.

Definition reviewOptions : Options :=
  {| formDef := Some 0; formKey := Some "new-review"; language := Some "en";
     skipRequiredCheck := [] |}.

Definition reviewBody : gmap string JsVal :=
  {[ "review-title" := JStr " Tom & Jerry ";
     "review-text" := JStr "a <b>classic</b>";
     "review-summary" := JStr "fun";
     "_csrf" := JStr "token";
     "captcha-id" := JStr "0";
     "captcha-answer" := JStr " paris " ]}.

Definition reviewRequest : Request :=
  {| body := reviewBody; locale := Some "en" |}.

(** The sample submission with "length" as the id of the captcha. *)
Definition lengthRequest : Request :=
  {| body := <[ "captcha-id" := JStr "length" ]>
               (<[ "captcha-answer" := JStr "Paris" ]> reviewBody);
     locale := Some "en" |}.

(** A form whose required title comes from elsewhere, and a submission
    without it. *)
Definition titleOnlyState : State :=
  {| arrays := [[titleField]]; flashed := [] |}.

Definition exemptOptions : Options :=
  {| formDef := Some 0; formKey := None; language := Some "en";
     skipRequiredCheck := ["review-title"] |}.

Definition tokenOnlyRequest : Request :=
  {| body := {[ "_csrf" := JStr "token" ]}; locale := Some "en" |}.

(** A form with one presence-only markdown field, and a submission that
    has it. *)
Definition notesState : State :=
  {| arrays := [[notesField]]; flashed := [] |}.

Definition notesOptions : Options :=
  {| formDef := Some 0; formKey := None; language := Some "en";
     skipRequiredCheck := [] |}.

Definition notesRequest : Request :=
  {| body := {[ "review-notes" := JStr "hello"; "_csrf" := JStr "token" ]};
     locale := Some "en" |}.

(** The result of a call that returned. *)
Definition resultOf (run : Res SubmissionResult * State) : SubmissionResult :=
  match fst run with
  | Ok r => r
  | Throw _ =>
      {| hasRequiredFields := false; hasUnknownFields := false;
         hasCorrectCaptcha := None; formValues := ∅ |}
  end.

Definition reviewRun : Res SubmissionResult * State :=
  parseSubmission reviewRequest reviewOptions reviewState.

Definition exemptRun : Res SubmissionResult * State :=
  parseSubmission tokenOnlyRequest exemptOptions titleOnlyState.

Definition notesRun : Res SubmissionResult * State :=
  parseSubmission notesRequest notesOptions notesState.

(** *** A handler for reviews *)

Import FormHandler.

Definition deletedReview : Resource :=
  {| _revDeleted := true;
     populateUserInfo :=
       fun _ w => (Ok {| userCanEdit := true; userCanDelete := true |}, w) |}.

Definition showForm : VerbHandler :=
  fun _ => FormHandler.render
             (Template "review-form"
                {| ctx_titleKey := Some "edit review"; ctx_id := None;
                   ctx_detailsKey := None |}).

Definition loadDeleted : Loader :=
  fun w => (Ok (Resolved (Some deletedReview)), w).

(** The table of a subclass for reviews: every action has the default
    check, edit and delete have the loader and the default permission
    checks, and each action has its title. *)
Definition reviewActions (load : Loader) : Actions :=
  {| create := {| GET := Some showForm; POST := Some showForm;
                  preFlightChecks := [userIsSignedIn];
                  loadData := None;
                  resourcePermissionCheck := None;
                  titleKey := Some "new review" |};
     edit := {| GET := Some showForm; POST := Some showForm;
                preFlightChecks := [userIsSignedIn];
                loadData := Some load;
                resourcePermissionCheck := Some userCanEdit';
                titleKey := Some "edit review" |};
     delete := {| GET := Some showForm; POST := None;
                  preFlightChecks := [userIsSignedIn];
                  loadData := Some load;
                  resourcePermissionCheck := Some userCanDelete';
                  titleKey := Some "delete review" |} |}.

Definition reviewHandler (a : string) (m : Method) (i : option string)
    : FormHandler :=
  {| actions := reviewActions loadDeleted;
     documentNotFoundTemplate := "404";
     documentNotFoundTitleKey := "page not found title";
     action := a;
     method := m;
     id := i;
     this_type := None;
     this_loadData := Some loadDeleted |}.

Definition editHandler : FormHandler :=
  reviewHandler "edit" Get (Some "abc").

Definition publishHandler : FormHandler :=
  reviewHandler "publish" Get None.

(** A second pre-flight check that passes and renders nothing. *)
Definition alwaysPasses : Check := customCheck (fun w => (Ok true, w)).

Definition createHandler : FormHandler :=
  addPreFlightCheck
    (reviewHandler "create" Get None)
    alwaysPasses.

Definition anonymous : World :=
  {| user := None; status := None; rendered := []; forwarded := [] |}.

Definition signedIn : World :=
  {| user := Some {| displayName := "ann"; isTrusted := false |};
     status := None; rendered := []; forwarded := [] |}.

(** *** Further submissions and handlers *)

(** The sample submission with a field the form does not have. *)
Definition surplusRequest : Request :=
  {| body := <[ "is-admin" := JStr "1" ]> reviewBody; locale := Some "en" |}.

Definition surplusRun : Res SubmissionResult * Forms.State :=
  parseSubmission surplusRequest reviewOptions reviewState.

(** The sample submission without an answer to the captcha. *)
Definition unansweredRequest : Request :=
  {| body := {[ "review-title" := JStr " Tom & Jerry ";
                "review-text" := JStr "a <b>classic</b>";
                "review-summary" := JStr "fun";
                "_csrf" := JStr "token";
                "captcha-id" := JStr "0" ]};
     locale := Some "en" |}.

Definition unansweredRun : Res SubmissionResult * Forms.State :=
  parseSubmission unansweredRequest reviewOptions reviewState.

(** A review its author may edit, and one that nobody may edit. *)
Definition ownReview : Resource :=
  {| _revDeleted := false;
     populateUserInfo :=
       fun _ w => (Ok {| userCanEdit := true; userCanDelete := true |}, w) |}.


Definition loadOwn : Loader := fun w => (Ok (Resolved (Some ownReview)), w).


Definition databaseDown : JsError := Error "connection refused".

Definition loadFails : Loader := fun w => (Ok (Rejected databaseDown), w).

(** A verb handler that throws. *)
Definition crash : VerbHandler :=
  fun _ w => (Throw (Error "template missing"), w).

(** An action without handlers, with the default check. *)
Definition bareAction : ActionSpec :=
  {| GET := None; POST := None;
     preFlightChecks := [userIsSignedIn];
     loadData := None;
     resourcePermissionCheck := None;
     titleKey := None |}.

(** A handler for GET on the edit action of review "abc", with
    [permission] as the permission check of that action. *)
Definition editUnder (permission : option PermissionCheck) (load : Loader)
    (onGet : VerbHandler) : FormHandler :=
  {| actions :=
       {| create := bareAction;
          edit := {| GET := Some onGet; POST := None;
                     preFlightChecks := [userIsSignedIn];
                     loadData := Some load;
                     resourcePermissionCheck := permission;
                     titleKey := None |};
          delete := bareAction |};
     documentNotFoundTemplate := "404";
     documentNotFoundTitleKey := "page not found title";
     action := "edit";
     method := Get;
     id := Some "abc";
     this_type := None;
     this_loadData := Some load |}.

(** With the default permission check of the edit action. *)
Definition editWith (load : Loader) (onGet : VerbHandler) : FormHandler :=
  editUnder (Some userCanEdit') load onGet.

(** Without a permission check on the edit action. *)
Definition editFreely (load : Loader) (onGet : VerbHandler) : FormHandler :=
  editUnder None load onGet.

(** A handler whose create form throws. *)
Definition crashingCreate : FormHandler :=
  {| actions :=
       {| create := {| GET := Some crash; POST := None;
                       preFlightChecks := [userIsSignedIn];
                       loadData := None;
                       resourcePermissionCheck := None;
                       titleKey := None |};
          edit := bareAction;
          delete := bareAction |};
     documentNotFoundTemplate := "404";
     documentNotFoundTitleKey := "page not found title";
     action := "create";
     method := Get;
     id := None;
     this_type := None;
     this_loadData := None |}.

(** A check that throws. *)
Definition brokenCheck : Check :=
  customCheck (fun w => (Throw (Error "session store unavailable"), w)).

(** The create action of the review handler, with a check that throws
    and a check that passes added to the default one. *)
Definition guardedCreate : FormHandler :=
  addPreFlightCheck
    (addPreFlightCheck (reviewHandler "create" Get None) brokenCheck)
    alwaysPasses.

(** The run after the one default check has passed for a signed-in
    user. *)
Definition checked : Run :=
  {| calls := [CallCheck 0 (Some true)]; world := signedIn |}.





End Sample.

(** * Properties of the submission parser *)

Module FormsFacts.
Import Forms.

Section Facts.
Context `{Externals}.

Ltac unfold_eff :=
  unfold call_trim, flash, push, copy_array, read_array in *;
  unfold bind, ret, throw, catch in *.

Lemma alter_at_end {A} (f : A -> A) (l : list A) (x : A) :
  alter f (length l) (l ++ [x]) = l ++ [f x].
Proof.
  induction l as [|y l IH]; simpl; [reflexivity|].
  f_equal. exact IH.
Qed.

Lemma lookup_at_end {A} (l : list A) (x : A) :
  (l ++ [x]) !! length l = Some x.
Proof.
  induction l as [|y l IH]; simpl; [reflexivity|exact IH].
Qed.

(** The CAPTCHA check queues messages but touches no array. *)
Lemma processCaptchaAnswer_arrays (req : Request) (st : State) :
  arrays (snd (processCaptchaAnswer req st)) = arrays st.
Proof.
  unfold processCaptchaAnswer. unfold_eff.
  repeat (case_match; simpl in *; simplify_eq; try reflexivity).
Qed.

Lemma transform_arrays (req : Request) (options : Options) (f : Field)
    (fv : gmap string JsVal) (st : State) :
  snd (transform req options f fv st) = st.
Proof.
  unfold transform.
  destruct (type f), (flat f), (body_get req (name f)); reflexivity.
Qed.

Lemma processField_arrays (req : Request) (options : Options) (f : Field)
    (vars : Vars) (st : State) :
  arrays (snd (processField req options f vars st)) = arrays st.
Proof.
  unfold processField.
  repeat case_match; try reflexivity.
  all: unfold bind;
    pose proof (transform_arrays req options f (v_formValues vars) st) as Ht;
    destruct (transform req options f (v_formValues vars) st) as [[fv|e] st1];
    simpl in *; subst; reflexivity.
Qed.

Lemma forOf_arrays (req : Request) (options : Options) (fields : list Field) :
  forall vars st, arrays (snd (forOf req options fields vars st)) = arrays st.
Proof.
  induction fields as [|f fields IH]; intros vars st; simpl; [reflexivity|].
  unfold bind.
  pose proof (processField_arrays req options f vars st) as Hf.
  destruct (processField req options f vars st) as [[vars'|e] st1]; simpl in *.
  - rewrite IH. exact Hf.
  - exact Hf.
Qed.

(** What a returning call went through. *)
Lemma parseSubmission_inv (req : Request) (options : Options) (st : State)
    (r : SubmissionResult) (st' : State) :
  parseSubmission req options st = (Ok r, st') ->
  exists st1 vars st2,
    (if captchaEnabled (formKey options)
     then exists b, processCaptchaAnswer req (pushed options st) = (Ok b, st1)
                    /\ hasCorrectCaptcha r = Some b
     else st1 = pushed options st /\ hasCorrectCaptcha r = None)
    /\ forOf req options (schema options st) (initialVars req) st1 = (Ok vars, st2)
    /\ hasRequiredFields r = v_hasRequiredFields vars
    /\ formValues r = v_formValues vars
    /\ hasUnknownFields r = match v_processedKeys vars with [] => false | _ => true end.
Proof.
  unfold parseSubmission, pushed, schema, implicitFields, callerFields.
  intros E. unfold bind in E. simpl in E. rewrite alter_at_end in E.
  destruct (captchaEnabled (formKey options)) eqn:Hc; simpl in E.
  - rewrite alter_at_end in E. rewrite <- app_assoc in E. simpl in E.
    match type of E with
    | context [processCaptchaAnswer req ?s] => set (stp := s) in *
    end.
    pose proof (processCaptchaAnswer_arrays req stp) as Harr.
    destruct (processCaptchaAnswer req stp) as [[b|e] st1] eqn:Hp;
      simpl in *; [|discriminate].
    rewrite Harr, lookup_at_end in E. simpl in E.
    destruct (forOf _ _ _ _ st1) as [[vars|e] st2] eqn:Hf; [|discriminate].
    exists st1, vars, st2.
    destruct (v_processedKeys vars); unfold ret in E; simpl in E;
      inversion E; subst; simpl; eauto 10.
  - unfold ret at 1 in E. rewrite lookup_at_end in E. simpl in E.
    match type of E with
    | context [forOf _ _ _ _ ?s] => set (stp := s) in *
    end.
    destruct (forOf _ _ _ _ stp) as [[vars|e] st2] eqn:Hf; [|discriminate].
    exists stp, vars, st2.
    destruct (v_processedKeys vars); unfold ret in E; simpl in E;
      inversion E; subst; simpl; eauto 10.
Qed.

Lemma transform_other_key (req : Request) (options : Options) (f : Field)
    (fv fv' : gmap string JsVal) (st st' : State) (k : string) :
  k ≠ field_key f ->
  (type f = TMarkdown -> flat f = true -> k ≠ prop_key (htmlKey f)) ->
  transform req options f fv st = (Ok fv', st') ->
  fv' !! k = fv !! k.
Proof.
  intros Hk Hh. unfold transform.
  destruct (type f) eqn:Ht; [| | | destruct (flat f) eqn:Hfl | |];
    destruct (body_get req (name f)); unfold_eff; simpl;
    intros E; inversion E; subst;
    rewrite ?lookup_insert_ne; auto;
    try (specialize (Hh eq_refl eq_refl)); congruence.
Qed.

Lemma processField_other_key (req : Request) (options : Options) (f : Field)
    (vars vars' : Vars) (st st' : State) (k : string) :
  k ∉ targets options f ->
  processField req options f vars st = (Ok vars', st') ->
  v_formValues vars' !! k = v_formValues vars !! k.
Proof.
  unfold targets, processField. intros Hk.
  destruct (negb (exempted options f) && _) eqn:Hreq.
  { unfold_eff. simpl. intros E; inversion E; reflexivity. }
  destruct (skipValue f || exempted options f) eqn:Hskip.
  { unfold_eff. simpl. intros E; inversion E; reflexivity. }
  unfold bind.
  destruct (transform req options f (v_formValues vars) st) as [[fv|e] st1] eqn:Ht;
    [|discriminate].
  unfold ret. intros E; inversion E; subst; simpl.
  eapply transform_other_key; [| |exact Ht].
  - intros ->. apply Hk. left.
  - intros Hm Hfl ->. apply Hk. rewrite Hm, Hfl. right. left.
Qed.

Lemma forOf_other_key (req : Request) (options : Options) (k : string)
    (fields : list Field) :
  forall (vars vars' : Vars) (st st' : State),
    (forall f, f ∈ fields -> k ∉ targets options f) ->
    forOf req options fields vars st = (Ok vars', st') ->
    v_formValues vars' !! k = v_formValues vars !! k.
Proof.
  induction fields as [|f fields IH]; intros vars vars' st st' Hall; simpl.
  - unfold ret. intros E; inversion E; reflexivity.
  - unfold bind.
    destruct (processField req options f vars st) as [[v1|e] st1] eqn:Hf;
      [|discriminate].
    intros E.
    rewrite (IH _ _ _ _ (fun g Hg => Hall g (list_elem_of_further _ _ _ Hg)) E).
    eapply processField_other_key; [|exact Hf].
    apply Hall. left.
Qed.

Lemma forOf_app (req : Request) (options : Options) (l1 l2 : list Field) :
  forall (vars : Vars) (st : State),
    forOf req options (l1 ++ l2) vars st =
    (vars1 <- forOf req options l1 vars ;; forOf req options l2 vars1) st.
Proof.
  induction l1 as [|f l1 IH]; intros vars st; simpl.
  - reflexivity.
  - unfold bind.
    destruct (processField req options f vars st) as [[v1|e] st1]; [|reflexivity].
    rewrite IH. reflexivity.
Qed.

Lemma transform_keeps_keys (req : Request) (options : Options) (f : Field)
    (fv fv' : gmap string JsVal) (st st' : State) (k : string) :
  is_Some (fv !! k) ->
  transform req options f fv st = (Ok fv', st') ->
  is_Some (fv' !! k).
Proof.
  intros Hk. unfold transform.
  destruct (type f) eqn:Ht; [| | | destruct (flat f) eqn:Hfl | |];
    destruct (body_get req (name f)); unfold_eff; simpl;
    intros E; inversion E; subst;
    rewrite ?lookup_insert_is_Some'; auto.
Qed.

Lemma processField_keeps_keys (req : Request) (options : Options) (f : Field)
    (vars vars' : Vars) (st st' : State) (k : string) :
  is_Some (v_formValues vars !! k) ->
  processField req options f vars st = (Ok vars', st') ->
  is_Some (v_formValues vars' !! k).
Proof.
  unfold processField. intros Hk.
  destruct (negb (exempted options f) && _) eqn:Hreq.
  { unfold_eff. simpl. intros E; inversion E; exact Hk. }
  destruct (skipValue f || exempted options f) eqn:Hskip.
  { unfold_eff. simpl. intros E; inversion E; exact Hk. }
  unfold bind.
  destruct (transform req options f (v_formValues vars) st) as [[fv|e] st1] eqn:Ht;
    [|discriminate].
  unfold ret. intros E; inversion E; subst; simpl.
  eapply transform_keeps_keys; eauto.
Qed.

Lemma forOf_keeps_keys (req : Request) (options : Options) (k : string)
    (fields : list Field) :
  forall (vars vars' : Vars) (st st' : State),
    is_Some (v_formValues vars !! k) ->
    forOf req options fields vars st = (Ok vars', st') ->
    is_Some (v_formValues vars' !! k).
Proof.
  induction fields as [|f fields IH]; intros vars vars' st st' Hk; simpl.
  - unfold ret. intros E; inversion E; subst; exact Hk.
  - unfold bind.
    destruct (processField req options f vars st) as [[v1|e] st1] eqn:Hf;
      [|discriminate].
    apply IH. eapply processField_keeps_keys; eauto.
Qed.

Lemma processField_required_down (req : Request) (options : Options)
    (f : Field) (vars vars' : Vars) (st st' : State) :
  v_hasRequiredFields vars = false ->
  processField req options f vars st = (Ok vars', st') ->
  v_hasRequiredFields vars' = false.
Proof.
  unfold processField. intros Hk.
  repeat case_match; unfold_eff; simpl; try (intros E; inversion E; subst; auto; fail).
  all: destruct (transform req options f (v_formValues vars) st) as [[fv|e] st1];
    intros E; inversion E; subst; auto.
Qed.

Lemma forOf_required_down (req : Request) (options : Options)
    (fields : list Field) :
  forall (vars vars' : Vars) (st st' : State),
    v_hasRequiredFields vars = false ->
    forOf req options fields vars st = (Ok vars', st') ->
    v_hasRequiredFields vars' = false.
Proof.
  induction fields as [|f fields IH]; intros vars vars' st st' Hk; simpl.
  - unfold ret. intros E; inversion E; subst; exact Hk.
  - unfold bind.
    destruct (processField req options f vars st) as [[v1|e] st1] eqn:Hf;
      [|discriminate].
    apply IH. eapply processField_required_down; eauto.
Qed.

Lemma forOf_at_field (req : Request) (options : Options)
    (pre post : list Field) (f : Field) (vars0 vars : Vars) (st1 st2 : State) :
  forOf req options (pre ++ f :: post) vars0 st1 = (Ok vars, st2) ->
  exists va sa vb sb,
    forOf req options pre vars0 st1 = (Ok va, sa)
    /\ processField req options f va sa = (Ok vb, sb)
    /\ forOf req options post vb sb = (Ok vars, st2).
Proof.
  rewrite forOf_app. unfold bind at 1.
  destruct (forOf req options pre vars0 st1) as [[va|e] sa]; [|discriminate].
  simpl. unfold bind at 1.
  destruct (processField req options f va sa) as [[vb|e] sb] eqn:Hf; [|discriminate].
  intros E. exists va, sa, vb, sb. auto.
Qed.

(** A field that neither [skipValue] nor an exemption nor the required
    check stops reaches the type switch. *)
Lemma processField_reaches_transform (req : Request) (options : Options)
    (f : Field) (vars : Vars) (st : State) :
  skipValue f = false ->
  exempted options f = false ->
  (required f = true -> truthy (body_get req (name f)) = true) ->
  exists keys,
    processField req options f vars st =
    (fv <- transform req options f (v_formValues vars) ;;
     ret {| v_hasRequiredFields := v_hasRequiredFields vars;
            v_formValues := fv;
            v_processedKeys := keys |}) st.
Proof.
  intros Hs He Hr. unfold processField. rewrite Hs, He. simpl.
  destruct (required f).
  - rewrite Hr by reflexivity. simpl. eauto.
  - rewrite andb_false_r. eauto.
Qed.

Lemma processCaptchaAnswer_result (req : Request) (st1 st2 : State) :
  fst (processCaptchaAnswer req st1) = fst (processCaptchaAnswer req st2).
Proof.
  unfold processCaptchaAnswer. unfold_eff.
  repeat (case_match; simpl in *; simplify_eq; try reflexivity).
Qed.

(** C8. A call changes no array object that existed before it: the
    arrays afterwards are the arrays before, followed by one new array
    that holds the caller's fields, the required [_csrf] field and, when
    CAPTCHA is enabled, the two CAPTCHA fields.  This holds whether the
    call returns or throws. *)
Theorem parseSubmission_leaves_formDef_alone (req : Request)
    (options : Options) (st : State) :
  arrays (snd (parseSubmission req options st)) =
  arrays st ++ [callerFields options st ++ implicitFields options].
Proof.
  unfold parseSubmission, implicitFields, callerFields.
  unfold bind. simpl. rewrite alter_at_end.
  destruct (captchaEnabled (formKey options)) eqn:Hc; simpl.
  - rewrite alter_at_end, <- app_assoc. simpl.
    match goal with
    | |- context [processCaptchaAnswer req ?s] => set (stp := s)
    end.
    pose proof (processCaptchaAnswer_arrays req stp) as Harr.
    destruct (processCaptchaAnswer req stp) as [[b|e] st1]; simpl in *;
      [|exact Harr].
    rewrite Harr, lookup_at_end. simpl.
    match goal with
    | |- context [forOf req options ?l ?v st1] =>
        pose proof (forOf_arrays req options l v st1) as Hfor;
        destruct (forOf req options l v st1) as [[vars|e] st2]
    end; simpl in *; [|congruence].
    destruct (v_processedKeys vars); simpl; congruence.
  - unfold ret at 1. rewrite lookup_at_end. simpl.
    match goal with
    | |- context [forOf req options ?l ?v ?s] =>
        pose proof (forOf_arrays req options l v s) as Hfor;
        destruct (forOf req options l v s) as [[vars|e] st2]
    end; simpl in *; [|congruence].
    destruct (v_processedKeys vars); simpl; congruence.
Qed.

(** C10. In the result of a call that returns, [hasCorrectCaptcha] is
    null exactly when CAPTCHA is not enabled for the form key; when it is
    enabled, [hasCorrectCaptcha] is the boolean that
    [processCaptchaAnswer] returned. *)
Theorem hasCorrectCaptcha_null_iff_disabled (req : Request)
    (options : Options) (st : State) (r : SubmissionResult) (st' : State) :
  parseSubmission req options st = (Ok r, st') ->
  (hasCorrectCaptcha r = None <-> captchaEnabled (formKey options) = false)
  /\ (captchaEnabled (formKey options) = true ->
      exists b, fst (processCaptchaAnswer req st) = Ok b
                /\ hasCorrectCaptcha r = Some b).
Proof.
  intros E. apply parseSubmission_inv in E.
  destruct E as (st1 & vars & st2 & Hcap & _).
  destruct (captchaEnabled (formKey options)).
  - destruct Hcap as (b & Hp & Hr). split.
    + rewrite Hr. split; discriminate.
    + intros _. exists b. split; [|exact Hr].
      rewrite (processCaptchaAnswer_result req st (pushed options st)), Hp.
      reflexivity.
  - destruct Hcap as [_ Hr]. split.
    + rewrite Hr. split; reflexivity.
    + discriminate.
Qed.

(** C6, at an input where the call throws.  When at least one captcha is
    configured and the body sends "length" as the captcha id together
    with a nonempty answer, [captchas[id]] is the length of the array:
    the guard for an unknown captcha lets it pass, and
    [processCaptchaAnswer] ends in a TypeError instead of returning
    false; nothing is queued. *)
Theorem processCaptchaAnswer_throws_on_length (req : Request) (st : State)
    (s : string) :
  body req !! "captcha-id" = Some (JStr "length") ->
  body req !! "captcha-answer" = Some (JStr s) ->
  s <> EmptyString ->
  captchas questionCaptcha <> [] ->
  exists msg, processCaptchaAnswer req st = (Throw (TypeError msg), st).
Proof.
  intros Hid Hans Hne Hcaptchas.
  unfold processCaptchaAnswer, captchaAt, body_get. rewrite Hid, Hans. simpl.
  destruct (String.eqb_spec s EmptyString) as [->|_]; [contradiction|]. simpl.
  unfold array_get. simpl.
  destruct (captchas questionCaptcha); [contradiction|].
  unfold_eff. simpl. eauto.
Qed.

Lemma body_get_absent (req : Request) (n : string) :
  body req !! n = None -> body_get req n = JUndefined.
Proof. unfold body_get. intros ->. reflexivity. Qed.

Lemma body_get_present (req : Request) (n : string) (v : JsVal) :
  body req !! n = Some v -> body_get req n = v.
Proof. unfold body_get. intros ->. reflexivity. Qed.

(** C9. A boolean field that is not required, not [skipValue] and not
    exempted, and that the body does not contain: its iteration assigns
    [false] to the field's key and queues nothing; the key is therefore
    present in the [formValues] of a returning call, and its value there
    is [false] unless a later field of the schema assigns the same key. *)
Theorem absent_boolean_is_written_false (req : Request) (options : Options)
    (f : Field) :
  type f = TBoolean ->
  required f = false ->
  skipValue f = false ->
  exempted options f = false ->
  body req !! name f = None ->
  (forall vars st0,
      exists keys,
        processField req options f vars st0 =
        (Ok {| v_hasRequiredFields := v_hasRequiredFields vars;
               v_formValues := <[field_key f := JBool false]> (v_formValues vars);
               v_processedKeys := keys |}, st0))
  /\ (forall st r st' pre post,
         parseSubmission req options st = (Ok r, st') ->
         schema options st = pre ++ f :: post ->
         is_Some (formValues r !! field_key f)
         /\ ((forall g, g ∈ post -> field_key f ∉ targets options g) ->
             formValues r !! field_key f = Some (JBool false))).
Proof.
  intros Hty Hreq Hskip Hex Habs.
  assert (Hstep : forall vars st0,
      exists keys,
        processField req options f vars st0 =
        (Ok {| v_hasRequiredFields := v_hasRequiredFields vars;
               v_formValues := <[field_key f := JBool false]> (v_formValues vars);
               v_processedKeys := keys |}, st0)).
  { intros vars st0.
    destruct (processField_reaches_transform req options f vars st0 Hskip Hex)
      as [keys Hp].
    { rewrite Hreq. discriminate. }
    exists keys. rewrite Hp. unfold transform.
    rewrite Hty, (body_get_absent req _ Habs). reflexivity. }
  split; [exact Hstep|].
  intros st r st' pre post E Hschema.
  apply parseSubmission_inv in E.
  destruct E as (st1 & vars & st2 & _ & Hfor & _ & Hfv & _).
  rewrite Hschema in Hfor.
  apply forOf_at_field in Hfor.
  destruct Hfor as (va & sa & vb & sb & _ & Hf & Hpost).
  destruct (Hstep va sa) as [keys Hk]. rewrite Hk in Hf.
  inversion Hf; subst vb sb; clear Hf.
  rewrite Hfv. split.
  - eapply forOf_keeps_keys; [|exact Hpost]. simpl.
    rewrite lookup_insert_eq. eauto.
  - intros Hlater.
    rewrite (forOf_other_key req options _ post _ _ _ _ Hlater Hpost). simpl.
    apply lookup_insert_eq.
Qed.

(** C7, amended.  A markdown field that is neither [skipValue] nor
    exempted, with a string value in the body (nonempty when the field is
    required).  Its iteration does not throw and queues nothing.  Without
    [flat] it stores under the field's key
    [{text: {[language]: escaped}, html: {[language]: rendered}}], where
    escaped and rendered are made from the trimmed value.  With [flat] it
    stores [{[language]: escaped}] under the field's key and then
    [{[language]: rendered}] under the [htmlKey].  In a call that returns,
    each of these values is still there unless a later field of the
    schema assigns the same key (for the flat text: unless the [htmlKey]
    is the field's own key). *)
Theorem markdown_field_values (req : Request) (options : Options)
    (f : Field) (s : string) :
  type f = TMarkdown ->
  skipValue f = false ->
  exempted options f = false ->
  body req !! name f = Some (JStr s) ->
  (required f = true -> s <> EmptyString) ->
  let text := ml options (escapeHTML (trim s)) in
  let html := ml options (md_render (trim s) (locale req)) in
  (forall vars st0,
      exists keys,
        processField req options f vars st0 =
        (Ok {| v_hasRequiredFields := v_hasRequiredFields vars;
               v_formValues :=
                 if flat f
                 then <[prop_key (htmlKey f) := html]>
                        (<[field_key f := text]> (v_formValues vars))
                 else <[field_key f := JObj [("text", text); ("html", html)]]>
                        (v_formValues vars);
               v_processedKeys := keys |}, st0))
  /\ (forall st r st' pre post,
         parseSubmission req options st = (Ok r, st') ->
         schema options st = pre ++ f :: post ->
         (flat f = false ->
          (forall g, g ∈ post -> field_key f ∉ targets options g) ->
          formValues r !! field_key f
          = Some (JObj [("text", text); ("html", html)]))
         /\ (flat f = true ->
             (forall g, g ∈ post -> prop_key (htmlKey f) ∉ targets options g) ->
             formValues r !! prop_key (htmlKey f) = Some html)
         /\ (flat f = true ->
             field_key f <> prop_key (htmlKey f) ->
             (forall g, g ∈ post -> field_key f ∉ targets options g) ->
             formValues r !! field_key f = Some text)).
Proof.
  intros Hty Hskip Hex Hbody Hne text html.
  assert (Hstep : forall vars st0,
      exists keys,
        processField req options f vars st0 =
        (Ok {| v_hasRequiredFields := v_hasRequiredFields vars;
               v_formValues :=
                 if flat f
                 then <[prop_key (htmlKey f) := html]>
                        (<[field_key f := text]> (v_formValues vars))
                 else <[field_key f := JObj [("text", text); ("html", html)]]>
                        (v_formValues vars);
               v_processedKeys := keys |}, st0)).
  { intros vars st0.
    destruct (processField_reaches_transform req options f vars st0 Hskip Hex)
      as [keys Hp].
    { intros Hr. rewrite (body_get_present req _ _ Hbody). simpl.
      destruct (String.eqb_spec s EmptyString) as [->|_]; [|reflexivity].
      exfalso. apply (Hne Hr). reflexivity. }
    exists keys. rewrite Hp. unfold transform.
    rewrite Hty, (body_get_present req _ _ Hbody).
    destruct (flat f); reflexivity. }
  split; [exact Hstep|].
  intros st r st' pre post E Hschema.
  apply parseSubmission_inv in E.
  destruct E as (st1 & vars & st2 & _ & Hfor & _ & Hfv & _).
  rewrite Hschema in Hfor.
  apply forOf_at_field in Hfor.
  destruct Hfor as (va & sa & vb & sb & _ & Hf & Hpost).
  destruct (Hstep va sa) as [keys Hk]. rewrite Hk in Hf.
  inversion Hf; subst vb sb; clear Hf.
  rewrite Hfv.
  repeat split.
  - intros Hflat Hlater.
    rewrite (forOf_other_key req options _ post _ _ _ _ Hlater Hpost). simpl.
    rewrite Hflat. apply lookup_insert_eq.
  - intros Hflat Hlater.
    rewrite (forOf_other_key req options _ post _ _ _ _ Hlater Hpost). simpl.
    rewrite Hflat. apply lookup_insert_eq.
  - intros Hflat Hkeys Hlater.
    rewrite (forOf_other_key req options _ post _ _ _ _ Hlater Hpost). simpl.
    rewrite Hflat. rewrite lookup_insert_ne by congruence.
    apply lookup_insert_eq.
Qed.

(** C4, amended.  A field that is [skipValue] or exempted never throws
    in its iteration and leaves [formValues] as it was.  An exempted
    field is not checked for presence: its iteration changes neither
    [hasRequiredFields] nor the queued messages.  A [skipValue] field
    that is not exempted is checked: when it is required and the body
    has no truthy value for it, [hasRequiredFields] becomes false and a
    message is queued.  In a call that returns, a key that no field of
    the schema assigns is absent from [formValues], and a required,
    non-exempted field without a truthy value makes [hasRequiredFields]
    false. *)
Theorem skipped_fields_emit_no_value (req : Request) (options : Options)
    (f : Field) :
  skipValue f = true \/ exempted options f = true ->
  (forall vars st0,
      exists vars' st1,
        processField req options f vars st0 = (Ok vars', st1)
        /\ v_formValues vars' = v_formValues vars
        /\ (exempted options f = true ->
            v_hasRequiredFields vars' = v_hasRequiredFields vars /\ st1 = st0)
        /\ (exempted options f = false ->
            required f = true ->
            truthy (body_get req (name f)) = false ->
            v_hasRequiredFields vars' = false
            /\ flashed st1 =
               flashed st0 ++ [("pageErrors", i18n (locale req) ("need " +:+ name f))]))
  /\ (forall st r st',
         parseSubmission req options st = (Ok r, st') ->
         f ∈ schema options st ->
         ((forall g, g ∈ schema options st -> field_key f ∉ targets options g) ->
          formValues r !! field_key f = None)
         /\ (exempted options f = false ->
             required f = true ->
             truthy (body_get req (name f)) = false ->
             hasRequiredFields r = false)).
Proof.
  intros Hskip.
  assert (Hstep : forall vars st0,
      exists vars' st1,
        processField req options f vars st0 = (Ok vars', st1)
        /\ v_formValues vars' = v_formValues vars
        /\ (exempted options f = true ->
            v_hasRequiredFields vars' = v_hasRequiredFields vars /\ st1 = st0)
        /\ (exempted options f = false ->
            required f = true ->
            truthy (body_get req (name f)) = false ->
            v_hasRequiredFields vars' = false
            /\ flashed st1 =
               flashed st0 ++ [("pageErrors", i18n (locale req) ("need " +:+ name f))])).
  { intros vars st0. unfold processField.
    destruct (exempted options f) eqn:Hex; simpl.
    - rewrite orb_true_r. unfold ret. eexists _, _.
      split; [reflexivity|]. simpl. repeat split; discriminate.
    - destruct Hskip as [Hs|Hs]; [|discriminate]. rewrite Hs. simpl.
      destruct (truthy (body_get req (name f))) eqn:Ht; simpl.
      + unfold ret. eexists _, _. split; [reflexivity|]. simpl.
        repeat split; try discriminate.
      + destruct (required f) eqn:Hr; unfold_eff; simpl; eexists _, _;
          (split; [reflexivity|]); simpl; repeat split; try discriminate. }
  split; [exact Hstep|].
  intros st r st' E Hin.
  apply parseSubmission_inv in E.
  destruct E as (st1 & vars & st2 & _ & Hfor & Hreq & Hfv & _).
  rewrite Hfv, Hreq. split.
  - intros Hnone.
    rewrite (forOf_other_key req options _ _ _ _ _ _ Hnone Hfor). simpl.
    apply lookup_empty.
  - intros Hex Hr Ht.
    apply list_elem_of_split in Hin. destruct Hin as (pre & post & Hsplit).
    rewrite Hsplit in Hfor. apply forOf_at_field in Hfor.
    destruct Hfor as (va & sa & vb & sb & _ & Hf & Hpost).
    destruct (Hstep va sa) as (vars' & s1 & Hp & _ & _ & Hdown).
    rewrite Hp in Hf. inversion Hf; subst vb sb; clear Hf.
    eapply forOf_required_down; [|exact Hpost].
    apply Hdown; assumption.
Qed.

(** C2, at an input where the call throws.  A schema whose only field is
    an optional text field, and a body that holds the CSRF token but not
    that field: [parseSubmission] ends in a TypeError, whatever the
    collaborators are. *)
Theorem parseSubmission_throws_on_absent_optional_text :
  let title := {| name := "title"; key := None; type := TText;
                  required := false; skipValue := false; flat := false;
                  htmlKey := None |} in
  let req := {| body := {[ "_csrf" := JStr "token" ]}; locale := None |} in
  let options := {| formDef := Some 0; formKey := None;
                    language := Some "en"; skipRequiredCheck := [] |} in
  fst (parseSubmission req options {| arrays := [[title]]; flashed := [] |})
  = Throw (TypeError "Cannot read property 'trim' of undefined").
Proof.
  intros title req options.
  unfold parseSubmission.
  destruct (captchaEnabled (formKey options)) eqn:Hc; vm_compute; reflexivity.
Qed.

Lemma processCaptchaAnswer_returns (req : Request) (st : State) :
  captchaCheckable req = true ->
  exists b st', processCaptchaAnswer req st = (Ok b, st').
Proof.
  unfold processCaptchaAnswer, captchaCheckable. intros Hs.
  destruct (truthy (body_get req "captcha-answer")); simpl;
    [|unfold ret; eauto].
  destruct (captchaAt (body_get req "captcha-id")); [| discriminate |].
  - destruct (body_get req "captcha-answer"); try discriminate.
    unfold_eff. simpl. destruct (negb _); eauto.
  - unfold_eff. simpl. eauto.
Qed.

Lemma processField_returns (req : Request) (options : Options) (f : Field)
    (vars : Vars) (st : State) :
  processable req options f = true ->
  exists vars' st', processField req options f vars st = (Ok vars', st').
Proof.
  unfold processable, processField. intros Hp.
  destruct (exempted options f) eqn:Hex; simpl in *.
  { rewrite orb_true_r. unfold ret. eauto. }
  rewrite orb_false_r in *.
  destruct (negb (truthy (body_get req (name f))) && required f) eqn:Hreq.
  { unfold_eff. simpl. eauto. }
  destruct (skipValue f).
  { unfold ret. eauto. }
  unfold transform.
  destruct (type f), (flat f), (body_get req (name f)); try discriminate;
    unfold_eff; simpl; eauto.
Qed.

Lemma forOf_returns (req : Request) (options : Options) (fields : list Field) :
  forall (vars : Vars) (st : State),
    forallb (processable req options) fields = true ->
    exists vars' st', forOf req options fields vars st = (Ok vars', st').
Proof.
  induction fields as [|f fields IH]; intros vars st Hall; simpl in *.
  - unfold ret. eauto.
  - apply andb_true_iff in Hall as [Hf Hall].
    destruct (processField_returns req options f vars st Hf) as (v1 & s1 & E1).
    unfold bind. rewrite E1. apply IH. exact Hall.
Qed.

(** With collaborators that return, [parseSubmission] returns whenever
    every field of the schema has a processable value and the CAPTCHA
    check, when it is enabled, can run to its end; a missing required
    field, an unknown field and a wrong CAPTCHA answer do not make it
    throw. *)
Lemma parseSubmission_returns (req : Request) (options : Options)
    (st : State) :
  forallb (processable req options) (schema options st) = true ->
  (captchaEnabled (formKey options) = true -> captchaCheckable req = true) ->
  exists r st', parseSubmission req options st = (Ok r, st').
Proof.
  unfold schema, implicitFields, callerFields. intros Hall Hans.
  unfold parseSubmission. unfold bind. simpl. rewrite alter_at_end.
  destruct (captchaEnabled (formKey options)) eqn:Hc; simpl.
  - rewrite alter_at_end, <- app_assoc. simpl.
    match goal with
    | |- context [processCaptchaAnswer req ?s] => set (stp := s)
    end.
    pose proof (processCaptchaAnswer_arrays req stp) as Harr.
    destruct (processCaptchaAnswer_returns req stp (Hans eq_refl))
      as (b & st1 & Hp).
    rewrite Hp in *. simpl in *.
    rewrite Harr, lookup_at_end. simpl.
    match goal with
    | |- context [forOf req options ?l ?v st1] =>
        destruct (forOf_returns req options l v st1 Hall) as (vars & st2 & Hf)
    end.
    rewrite Hf. destruct (v_processedKeys vars); unfold ret; simpl; eauto.
  - unfold ret at 1. rewrite lookup_at_end. simpl.
    match goal with
    | |- context [forOf req options ?l ?v ?s] =>
        destruct (forOf_returns req options l v s Hall) as (vars & st2 & Hf)
    end.
    rewrite Hf. destruct (v_processedKeys vars); unfold ret; simpl; eauto.
Qed.

End Facts.
(** ** The theorems at the sample review form *)

Section Samples.
Import Sample.

Ltac not_in_list :=
  let Hin := fresh "Hin" in
  vm_compute; intros Hin;
  repeat (apply elem_of_cons in Hin as [Hin|Hin]; [discriminate Hin|]);
  inversion Hin.

Ltac each_field Hg tac :=
  vm_compute in Hg;
  repeat (apply elem_of_cons in Hg as [->|Hg]; [tac|]);
  inversion Hg.

Ltac run_it := vm_compute; reflexivity.

(** The sample submission, for which CAPTCHA is enabled. *)
Lemma hasCorrectCaptcha_null_iff_disabled_witness :
  reviewRun = (Ok (resultOf reviewRun), snd reviewRun)
  /\ (hasCorrectCaptcha (resultOf reviewRun) = None
      <-> captchaEnabled (formKey reviewOptions) = false)
  /\ (captchaEnabled (formKey reviewOptions) = true ->
      exists b, fst (processCaptchaAnswer reviewRequest reviewState) = Ok b
                /\ hasCorrectCaptcha (resultOf reviewRun) = Some b).
Proof.
  split; [run_it|].
  apply (hasCorrectCaptcha_null_iff_disabled reviewRequest reviewOptions
           reviewState (resultOf reviewRun) (snd reviewRun)).
  run_it.
Defined.

(** A submission that sends "length" as the captcha id. *)
Lemma processCaptchaAnswer_throws_on_length_witness :
  exists msg,
    processCaptchaAnswer lengthRequest reviewState
    = (Throw (TypeError msg), reviewState).
Proof.
  apply (processCaptchaAnswer_throws_on_length lengthRequest reviewState "Paris");
    try run_it; discriminate.
Defined.

(** The sample submission leaves out the optional recommendation. *)
Lemma absent_boolean_is_written_false_witness :
  body reviewRequest !! name recommendField = None
  /\ reviewRun = (Ok (resultOf reviewRun), snd reviewRun)
  /\ formValues (resultOf reviewRun) !! "recommend" = Some (JBool false).
Proof.
  split; [run_it|]. split; [run_it|].
  refine (proj2 (proj2
    (absent_boolean_is_written_false reviewRequest reviewOptions recommendField
       _ _ _ _ _)
    reviewState (resultOf reviewRun) (snd reviewRun) [titleField; textField]
    (summaryField :: implicitFields reviewOptions) _ _) _);
    try reflexivity; try run_it.
  intros g Hg. each_field Hg not_in_list.
Defined.

(** The review text is nested markdown, the summary flat markdown. *)
Lemma markdown_field_values_witness :
  reviewRun = (Ok (resultOf reviewRun), snd reviewRun)
  /\ formValues (resultOf reviewRun) !! "text" =
     Some (JObj [("text", JObj [("en", JStr "a &lt;b&gt;classic&lt;/b&gt;")]);
                 ("html", JObj [("en", JStr "<p>a <b>classic</b></p>")])])
  /\ formValues (resultOf reviewRun) !! "summaryHtml" =
     Some (JObj [("en", JStr "<p>fun</p>")])
  /\ formValues (resultOf reviewRun) !! "summary" =
     Some (JObj [("en", JStr "fun")]).
Proof.
  split; [run_it|].
  split; [|split].
  - refine (proj1 (proj2
      (markdown_field_values reviewRequest reviewOptions textField
         "a <b>classic</b>" _ _ _ _ _)
      reviewState (resultOf reviewRun) (snd reviewRun)
      [titleField] (recommendField :: summaryField :: implicitFields reviewOptions)
      _ _) _ _);
      try reflexivity; try run_it; try discriminate.
    intros g Hg. each_field Hg not_in_list.
  - refine (proj1 (proj2 (proj2
      (markdown_field_values reviewRequest reviewOptions summaryField
         "fun" _ _ _ _ _)
      reviewState (resultOf reviewRun) (snd reviewRun)
      [titleField; textField; recommendField] (implicitFields reviewOptions)
      _ _)) _ _);
      try reflexivity; try run_it; try discriminate.
    intros g Hg. each_field Hg not_in_list.
  - refine (proj2 (proj2 (proj2
      (markdown_field_values reviewRequest reviewOptions summaryField
         "fun" _ _ _ _ _)
      reviewState (resultOf reviewRun) (snd reviewRun)
      [titleField; textField; recommendField] (implicitFields reviewOptions)
      _ _)) _ _ _);
      try reflexivity; try run_it; try discriminate.
    intros g Hg. each_field Hg not_in_list.
Defined.

(** C7 as stated fails for a markdown field with [skipValue]: its value
    is in the body, the call returns, and [formValues] has nothing under
    the field's key. *)
Lemma markdown_skipValue_stores_nothing :
  type notesField = TMarkdown
  /\ flat notesField = false
  /\ notesField ∈ schema notesOptions notesState
  /\ body notesRequest !! name notesField = Some (JStr "hello")
  /\ notesRun = (Ok (resultOf notesRun), snd notesRun)
  /\ formValues (resultOf notesRun) !! field_key notesField = None.
Proof.
  repeat split; try run_it.
  vm_compute. left.
Qed.

(** An exempted title and the [_csrf] field, which has [skipValue]. *)
Lemma skipped_fields_emit_no_value_witness :
  exemptRun = (Ok (resultOf exemptRun), snd exemptRun)
  /\ formValues (resultOf exemptRun) !! field_key titleField = None
  /\ formValues (resultOf exemptRun) !! field_key csrfField = None.
Proof.
  split; [run_it|]. split.
  - refine (proj1 (proj2
      (skipped_fields_emit_no_value tokenOnlyRequest exemptOptions titleField _)
      titleOnlyState (resultOf exemptRun) (snd exemptRun) _ _) _).
    + right. reflexivity.
    + run_it.
    + vm_compute. left.
    + intros g Hg. each_field Hg not_in_list.
  - refine (proj1 (proj2
      (skipped_fields_emit_no_value tokenOnlyRequest exemptOptions csrfField _)
      titleOnlyState (resultOf exemptRun) (snd exemptRun) _ _) _).
    + left. reflexivity.
    + run_it.
    + vm_compute. right. left.
    + intros g Hg. each_field Hg not_in_list.
Defined.

(** C4 as stated fails for an exempted field: the title is required,
    exempted and absent from the body, and the call returns with
    [hasRequiredFields] still true and no message queued. *)
Lemma exempted_field_is_not_checked :
  required titleField = true
  /\ name titleField ∈ skipRequiredCheck exemptOptions
  /\ titleField ∈ schema exemptOptions titleOnlyState
  /\ body tokenOnlyRequest !! name titleField = None
  /\ exemptRun = (Ok (resultOf exemptRun), snd exemptRun)
  /\ hasRequiredFields (resultOf exemptRun) = true
  /\ flashed (snd exemptRun) = [].
Proof.
  repeat split; try run_it.
  - vm_compute. left.
  - vm_compute. left.
Qed.
End Samples.

End FormsFacts.

(** * Properties of the dispatcher *)

Module FormHandlerFacts.
Import FormHandler.

Lemma actions_get_unknown (t : Actions) (a : string) :
  a ∉ action_names -> actions_get t a = None.
Proof.
  unfold actions_get, action_names. intros Hn. cbn [indexOf].
  destruct (String.eqb_spec "create" a) as [<-|_].
  { exfalso. apply Hn. set_solver. }
  destruct (String.eqb_spec "edit" a) as [<-|_].
  { exfalso. apply Hn. set_solver. }
  destruct (String.eqb_spec "delete" a) as [<-|_].
  { exfalso. apply Hn. set_solver. }
  reflexivity.
Qed.

Lemma actions_get_known (t : Actions) (a : string) (spec : ActionSpec) :
  actions_get t a = Some spec -> a ∈ action_names.
Proof.
  unfold actions_get, action_names. cbn [indexOf].
  destruct (String.eqb_spec "create" a) as [<-|_]; [set_solver|].
  destruct (String.eqb_spec "edit" a) as [<-|_]; [set_solver|].
  destruct (String.eqb_spec "delete" a) as [<-|_]; [set_solver|].
  discriminate.
Qed.

(** The loop over the checks calls them in order and nothing else; it
    stops only when a check throws. *)
Lemma runChecks_calls (h : FormHandler) (checks : list Check) :
  forall (i : nat) (mayProceed : bool) (r : Run),
    (exists results,
        length results = length checks
        /\ fst (runChecks h checks i mayProceed r)
           = Ok (mayProceed && forallb (fun b => b) results)
        /\ calls (snd (runChecks h checks i mayProceed r))
           = calls r ++ check_calls i results)
    \/ (exists results e,
           fst (runChecks h checks i mayProceed r) = Throw e
           /\ calls (snd (runChecks h checks i mayProceed r))
              = calls r ++ check_calls i results
                  ++ [CallCheck (i + length results) None]).
Proof.
  induction checks as [|c checks IH]; intros i mp r; simpl.
  - left. exists []. simpl. rewrite andb_true_r, app_nil_r. auto.
  - unfold bind, invoke.
    destruct (run_check h c (world r)) as [[b|e] w1]; simpl.
    + set (r1 := {| calls := calls r ++ [CallCheck i (Some b)]; world := w1 |}).
      destruct (IH (S i) (if negb b then false else mp) r1)
        as [(results & Hlen & Hres & Hcalls)|(results & e & Hres & Hcalls)].
      * left. exists (b :: results). simpl.
        rewrite Hlen, Hres, Hcalls. unfold r1. simpl.
        rewrite <- app_assoc. simpl.
        repeat split. f_equal. destruct b, mp; reflexivity.
      * right. exists (b :: results), e. simpl.
        rewrite Hres, Hcalls. unfold r1. simpl.
        rewrite <- app_assoc. simpl.
        replace (i + S (length results)) with (S i + length results) by lia.
        auto.
    + right. exists [], e. simpl. rewrite Nat.add_0_r. auto.
Qed.

(** The loop over checks that return: every one of them is called, in
    order, each in the world the one before left. *)
Lemma runChecks_Checked (h : FormHandler) (checks : list Check) :
  forall (i : nat) (mayProceed : bool) (r : Run) (results : list bool)
         (w' : World),
    Checked h checks (world r) results w' ->
    runChecks h checks i mayProceed r =
    (Ok (mayProceed && forallb (fun b => b) results),
     {| calls := calls r ++ check_calls i results; world := w' |}).
Proof.
  induction checks as [|c checks IH]; intros i mp r results w' Hc;
    inversion Hc; subst; simpl.
  - unfold ret. rewrite andb_true_r, app_nil_r. destruct r; reflexivity.
  - unfold bind, invoke.
    match goal with E : run_check h c _ = _ |- _ => rewrite E end.
    erewrite IH by (simpl; eassumption). simpl.
    rewrite <- app_assoc. destruct result, mp; reflexivity.
Qed.

Lemma Checked_length (h : FormHandler) (checks : list Check) (w : World)
    (results : list bool) (w' : World) :
  Checked h checks w results w' -> length results = length checks.
Proof. induction 1; simpl; congruence. Qed.

(** C5. When the action is none of create, edit and delete, and when the
    action is one of them but has no handler function for the requested
    method, [execute] throws an [Error] and has by then called nothing
    and left the request and the response as they were. *)
Theorem execute_rejects_bad_configuration (h : FormHandler) (w : World) :
  action h ∉ ["create"; "edit"; "delete"]
  \/ (exists spec, actions_get (actions h) (action h) = Some spec
                   /\ verb spec (method h) = None) ->
  exists msg,
    execute h (start w) = (Throw (Error msg), {| calls := []; world := w |}).
Proof.
  intros [Hunknown|(spec & Hspec & Hverb)]; unfold execute.
  - rewrite (actions_get_unknown _ _ Hunknown). eexists. reflexivity.
  - rewrite Hspec, Hverb. eexists. reflexivity.
Qed.

(** C3, amended.  For a recognized action with a handler for the
    method: when the pre-flight checks of the action, called one after
    the other, each in the world the one before left, all return, and at
    least one of them returns false, then [execute] calls exactly these
    checks, each once and in order, calls neither the loader nor the
    verb handler, leaves the request and the response as the last check
    left them, and returns. *)
Theorem failed_check_runs_every_check (h : FormHandler) (w : World)
    (spec : ActionSpec) (handler : VerbHandler) (results : list bool)
    (w' : World) :
  actions_get (actions h) (action h) = Some spec ->
  verb spec (method h) = Some handler ->
  Checked h (preFlightChecks spec) w results w' ->
  In false results ->
  execute h (start w) =
  (Ok tt, {| calls := check_calls 0 results; world := w' |})
  /\ length results = length (preFlightChecks spec).
Proof.
  intros Hspec Hverb Hchecked Hfalse.
  split; [|eapply Checked_length; eassumption].
  unfold execute. rewrite Hspec, Hverb. unfold bind.
  rewrite (runChecks_Checked h _ 0 true (start w) results w' Hchecked).
  simpl.
  assert (Hall : forallb (fun b => b) results = false).
  { apply not_true_is_false. intros Hall. rewrite forallb_forall in Hall.
    specialize (Hall false Hfalse). discriminate. }
  rewrite Hall. reflexivity.
Qed.

(** C1, amended.  For an action with a data loader and a handler for the
    method: when the pre-flight checks pass and the loader resolves to a
    resource whose [_revDeleted] is true, [execute] sets the status 404
    and renders the handler's [documentNotFoundTemplate] with the
    handler's [documentNotFoundTitleKey] and its [id]; the calls it makes
    are the pre-flight checks and the loader, never the verb handler. *)
Theorem deleted_resource_renders_404 (h : FormHandler) (w : World)
    (spec : ActionSpec) (handler : VerbHandler) (configured load : Loader)
    (r1 : Run) (d : Resource) (w2 : World) :
  actions_get (actions h) (action h) = Some spec ->
  verb spec (method h) = Some handler ->
  loadData spec = Some configured ->
  this_loadData h = Some load ->
  runChecks h (preFlightChecks spec) 0 true (start w) = (Ok true, r1) ->
  load (world r1) = (Ok (Resolved (Some d)), w2) ->
  _revDeleted d = true ->
  execute h (start w) =
  (Ok tt,
   {| calls := calls r1 ++ [CallLoad];
      world :=
        {| user := user w2;
           status := Some 404%Z;
           rendered :=
             rendered w2 ++
             [Template (documentNotFoundTemplate h)
                {| ctx_titleKey := Some (documentNotFoundTitleKey h);
                   ctx_id := id h;
                   ctx_detailsKey := None |}];
           forwarded := forwarded w2 |} |})
  /\ forallb (fun c => isCheck c || match c with CallLoad => true | _ => false end)
       (calls r1 ++ [CallLoad]) = true.
Proof.
  intros Hspec Hverb Hload Hthis Hchecks Hres Hdel. split.
  - unfold execute. rewrite Hspec, Hverb. unfold bind at 1. rewrite Hchecks.
    simpl. unfold dispatch. rewrite Hload, Hthis.
    unfold bind, invoke. rewrite Hres. simpl.
    unfold catch, onFulfilled. rewrite Hdel. unfold throw, onRejected. simpl.
    reflexivity.
  - destruct (runChecks_calls h (preFlightChecks spec) 0 true (start w))
      as [(results & _ & _ & Hcalls)|(results & e & Hthrow & _)];
      rewrite Hchecks in *; simpl in *; [|discriminate].
    rewrite Hcalls, forallb_app. simpl. rewrite andb_true_r.
    clear. generalize 0. induction results as [|b results IH]; intros i;
      simpl; auto.
Qed.

(** ** The theorems at the sample review handler *)

Section Samples.
Import Sample.

(** "publish" is not an action of the handler. *)
Lemma execute_rejects_bad_configuration_witness :
  exists msg,
    execute publishHandler (start signedIn)
    = (Throw (Error msg), {| calls := []; world := signedIn |}).
Proof.
  apply (execute_rejects_bad_configuration publishHandler signedIn).
  left. vm_compute. intros Hin.
  repeat (apply elem_of_cons in Hin as [Hin|Hin]; [discriminate Hin|]).
  inversion Hin.
Defined.

(** An anonymous visitor fails the first of two checks; the second is
    called all the same. *)
Lemma failed_check_runs_every_check_witness :
  execute createHandler (start anonymous) =
  (Ok tt,
   {| calls := check_calls 0 [false; true];
      world := snd (run_check createHandler userIsSignedIn anonymous) |})
  /\ length [false; true]
     = length (preFlightChecks (create (actions createHandler))).
Proof.
  apply (failed_check_runs_every_check createHandler anonymous
           (create (actions createHandler)) showForm [false; true]
           (snd (run_check createHandler userIsSignedIn anonymous))).
  - reflexivity.
  - reflexivity.
  - apply (Checked_cons createHandler userIsSignedIn [alwaysPasses] anonymous
             (snd (run_check createHandler userIsSignedIn anonymous))
             (snd (run_check createHandler userIsSignedIn anonymous))
             false [true]); [reflexivity|].
    apply (Checked_cons createHandler alwaysPasses []
             (snd (run_check createHandler userIsSignedIn anonymous))
             (snd (run_check createHandler userIsSignedIn anonymous))
             (snd (run_check createHandler userIsSignedIn anonymous))
             true []); [reflexivity|].
    apply Checked_nil.
  - simpl. auto.
Defined.

(** C3 as stated fails for the create action of a handler with three
    pre-flight checks of which the second throws: for an anonymous
    visitor the first check returns false, the second ends [execute]
    with its exception, and the third check is never called. *)
Lemma throwing_check_stops_the_checks :
  actions_get (actions guardedCreate) (action guardedCreate)
  = Some (create (actions guardedCreate))
  /\ verb (create (actions guardedCreate)) (method guardedCreate) = Some showForm
  /\ preFlightChecks (create (actions guardedCreate))
     = [userIsSignedIn; brokenCheck; alwaysPasses]
  /\ fst (run_check guardedCreate userIsSignedIn anonymous) = Ok false
  /\ execute guardedCreate (start anonymous) =
     (Throw (Error "session store unavailable"),
      {| calls := [CallCheck 0 (Some false); CallCheck 1 None];
         world := snd (run_check guardedCreate userIsSignedIn anonymous) |})
  /\ ~ (forall i, i < length (preFlightChecks (create (actions guardedCreate))) ->
         exists returned,
           CallCheck i returned
             ∈ calls (snd (execute guardedCreate (start anonymous)))).
Proof.
  repeat split; try reflexivity.
  intros Hall. destruct (Hall 2) as [returned Hin]; [simpl; lia|].
  vm_compute in Hin.
  repeat (apply elem_of_cons in Hin as [Hin|Hin]; [discriminate Hin|]).
  inversion Hin.
Qed.

(** A signed-in user asks to edit a review that was deleted. *)
Lemma deleted_resource_renders_404_witness :
  execute editHandler (start signedIn) =
  (Ok tt,
   {| calls := [CallCheck 0 (Some true); CallLoad];
      world :=
        {| user := user signedIn;
           status := Some 404%Z;
           rendered :=
             [Template "404"
                {| ctx_titleKey := Some "page not found title";
                   ctx_id := Some "abc";
                   ctx_detailsKey := None |}];
           forwarded := [] |} |}).
Proof.
  exact (proj1
    (deleted_resource_renders_404 editHandler signedIn
       (edit (actions editHandler)) showForm loadDeleted loadDeleted
       {| calls := [CallCheck 0 (Some true)]; world := signedIn |}
       deletedReview signedIn
       eq_refl eq_refl eq_refl eq_refl eq_refl eq_refl eq_refl)).
Defined.

(** C1 as stated fails for the edit action of the review handler: the
    action's title key is "edit review", the loader resolves to a deleted
    review, and the one thing rendered is the 404 template under the
    title key "page not found title". *)
Lemma deleted_resource_404_ignores_action_title :
  actions_get (actions editHandler) (action editHandler)
  = Some (edit (actions editHandler))
  /\ titleKey (edit (actions editHandler)) = Some "edit review"
  /\ this_loadData editHandler = Some loadDeleted
  /\ loadDeleted signedIn = (Ok (Resolved (Some deletedReview)), signedIn)
  /\ _revDeleted deletedReview = true
  /\ rendered (world (snd (execute editHandler (start signedIn))))
     = [Template "404"
          {| ctx_titleKey := Some "page not found title";
             ctx_id := id editHandler;
             ctx_detailsKey := None |}]
  /\ ~ (exists vars,
          Template "404" vars
            ∈ rendered (world (snd (execute editHandler (start signedIn))))
          /\ ctx_titleKey vars = titleKey (edit (actions editHandler))).
Proof.
  repeat split; try reflexivity.
  intros (vars & Hin & Htitle). vm_compute in Hin.
  apply list_elem_of_singleton in Hin. inversion Hin; subst vars.
  discriminate Htitle.
Qed.
End Samples.

End FormHandlerFacts.

(** * Further properties of the submission parser *)

Module FormsExtra.
Import Forms FormsFacts.

Section More.
Context `{Externals}.

Ltac unfold_eff :=
  unfold call_trim, flash, push, copy_array, read_array in *;
  unfold bind, ret, throw, catch in *.

(** One iteration, whatever its outcome, queues the message of a missing
    field and nothing else. *)
Lemma processField_flashed (req : Request) (options : Options) (f : Field)
    (vars : Vars) (st : State) :
  flashed (snd (processField req options f vars st)) =
  flashed st ++
  (if missingRequired req options f then [needMessage req f] else []).
Proof.
  unfold processField, missingRequired, needMessage.
  destruct (negb (exempted options f) && _) eqn:Hm.
  { reflexivity. }
  destruct (skipValue f || exempted options f); simpl.
  { rewrite app_nil_r. reflexivity. }
  unfold bind.
  pose proof (transform_arrays req options f (v_formValues vars) st) as Ht.
  destruct (transform req options f (v_formValues vars) st) as [[fv|e] st1];
    simpl in *; subst; rewrite app_nil_r; reflexivity.
Qed.

Lemma processField_vars (req : Request) (options : Options) (f : Field)
    (vars vars' : Vars) (st st' : State) :
  processField req options f vars st = (Ok vars', st') ->
  v_hasRequiredFields vars' =
    v_hasRequiredFields vars && negb (missingRequired req options f)
  /\ v_processedKeys vars' = removeName (name f) (v_processedKeys vars).
Proof.
  unfold processField, missingRequired, removeName.
  destruct (negb (exempted options f) && _) eqn:Hm.
  { unfold_eff. simpl. intros E; inversion E; subst; simpl.
    rewrite andb_false_r. auto. }
  destruct (skipValue f || exempted options f); simpl.
  { unfold ret. intros E; inversion E; subst; simpl.
    rewrite andb_true_r. auto. }
  unfold bind.
  destruct (transform req options f (v_formValues vars) st) as [[fv|e] st1];
    [|discriminate].
  unfold ret. intros E; inversion E; subst; simpl.
  rewrite andb_true_r. auto.
Qed.

Lemma forOf_vars (req : Request) (options : Options) (fields : list Field) :
  forall (vars vars' : Vars) (st st' : State),
    forOf req options fields vars st = (Ok vars', st') ->
    v_hasRequiredFields vars' =
      v_hasRequiredFields vars
      && forallb (fun f => negb (missingRequired req options f)) fields
    /\ v_processedKeys vars' =
       fold_left (fun keys f => removeName (name f) keys) fields
         (v_processedKeys vars)
    /\ flashed st' = flashed st ++ needMessages req options fields.
Proof.
  induction fields as [|f fields IH]; intros vars vars' st st'; simpl.
  - unfold ret. intros E; inversion E; subst.
    rewrite andb_true_r. unfold needMessages. simpl. rewrite app_nil_r. auto.
  - unfold bind.
    pose proof (processField_flashed req options f vars st) as Hfl.
    destruct (processField req options f vars st) as [[v1|e] st1] eqn:Hf;
      [|discriminate].
    apply processField_vars in Hf as [Hreq Hkeys].
    intros E. apply IH in E as (Hr & Hk & Hm).
    rewrite Hr, Hk, Hm, Hreq, Hkeys. simpl in Hfl. rewrite Hfl.
    unfold needMessages. simpl.
    destruct (missingRequired req options f), (v_hasRequiredFields vars);
      simpl; rewrite <- ?app_assoc, ?app_nil_r; auto.
Qed.

(** Whatever the outcome of the loop, what it queues are messages for
    missing fields. *)
Lemma forOf_flashed_prefix (req : Request) (options : Options)
    (fields : list Field) :
  forall (vars : Vars) (st : State),
    exists done,
      flashed (snd (forOf req options fields vars st)) =
      flashed st ++ needMessages req options done.
Proof.
  induction fields as [|f fields IH]; intros vars st; simpl.
  - exists []. unfold needMessages. simpl. rewrite app_nil_r. reflexivity.
  - unfold bind.
    pose proof (processField_flashed req options f vars st) as Hfl.
    destruct (processField req options f vars st) as [[v1|e] st1] eqn:Hf;
      simpl in *.
    + destruct (IH v1 st1) as [done Hd]. exists (f :: done).
      rewrite Hd, Hfl. unfold needMessages. simpl.
      destruct (missingRequired req options f); simpl;
        rewrite <- ?app_assoc, ?app_nil_r; auto.
    + exists [f]. rewrite Hfl. unfold needMessages. simpl.
      destruct (missingRequired req options f); reflexivity.
Qed.

Lemma processCaptchaAnswer_flashed (req : Request) (st : State) :
  flashed (snd (processCaptchaAnswer req st)) = flashed st ++ captchaMessages req.
Proof.
  unfold captchaMessages, processCaptchaAnswer. unfold_eff.
  repeat (case_match; simpl in *; simplify_eq; rewrite ?app_nil_r; try reflexivity).
Qed.

(** A returning call, start to end: the flags, the remaining keys and
    the queue. *)
Lemma parseSubmission_run (req : Request) (options : Options) (st : State)
    (r : SubmissionResult) (st' : State) :
  parseSubmission req options st = (Ok r, st') ->
  hasRequiredFields r =
    forallb (fun f => negb (missingRequired req options f)) (schema options st)
  /\ hasUnknownFields r =
     match fold_left (fun keys f => removeName (name f) keys)
             (schema options st) (map_to_list (body req)).*1 with
     | [] => false
     | _ :: _ => true
     end
  /\ flashed st' =
     flashed st
     ++ (if captchaEnabled (formKey options) then captchaMessages req else [])
     ++ needMessages req options (schema options st)
     ++ (if hasUnknownFields r then [unexpectedMessage req] else []).
Proof.
  unfold parseSubmission, schema, implicitFields, callerFields.
  intros E. unfold bind in E. simpl in E. rewrite alter_at_end in E.
  destruct (captchaEnabled (formKey options)) eqn:Hc; simpl in E.
  - rewrite alter_at_end in E. rewrite <- app_assoc in E. simpl in E.
    match type of E with
    | context [processCaptchaAnswer req ?s] => set (stp := s) in *
    end.
    pose proof (processCaptchaAnswer_arrays req stp) as Harr.
    pose proof (processCaptchaAnswer_flashed req stp) as Hcf.
    destruct (processCaptchaAnswer req stp) as [[b|e] st1] eqn:Hp;
      simpl in *; [|discriminate].
    rewrite Harr, lookup_at_end in E. simpl in E.
    destruct (forOf _ _ _ _ st1) as [[vars|e] st2] eqn:Hf; [|discriminate].
    apply forOf_vars in Hf as (Hr & Hk & Hm). simpl in Hr, Hk.
    destruct (v_processedKeys vars) eqn:Hkeys; unfold flash, bind, ret in E;
      simpl in E; inversion E; subst; simpl;
      rewrite <- Hk, ?Hm, ?Hcf; simpl; rewrite <- ?app_assoc, ?app_nil_r; auto.
  - unfold ret at 1 in E. rewrite lookup_at_end in E. simpl in E.
    match type of E with
    | context [forOf _ _ _ _ ?s] => set (stp := s) in *
    end.
    destruct (forOf _ _ _ _ stp) as [[vars|e] st2] eqn:Hf; [|discriminate].
    apply forOf_vars in Hf as (Hr & Hk & Hm). simpl in Hr, Hk, Hm.
    destruct (v_processedKeys vars) eqn:Hkeys; unfold flash, bind, ret in E;
      simpl in E; inversion E; subst; simpl;
      rewrite <- Hk, ?Hm; simpl; rewrite <- ?app_assoc, ?app_nil_r; auto.
Qed.

Lemma removeName_cons (n y : string) (keys : list string) :
  removeName n (y :: keys) =
  if String.eqb y n then keys else y :: removeName n keys.
Proof.
  unfold removeName. cbn [indexOf].
  destruct (String.eqb y n); [reflexivity|].
  destruct (indexOf keys n); reflexivity.
Qed.

(** On a list without duplicates, removing the first occurrence of a name
    removes the name. *)
Lemma removeName_spec (n : string) (keys : list string) :
  NoDup keys ->
  NoDup (removeName n keys)
  /\ forall k, k ∈ removeName n keys <-> k ∈ keys /\ k <> n.
Proof.
  induction keys as [|y keys IH]; intros Hnd.
  - split; [constructor|]. intros k. unfold removeName. simpl.
    split; [intros Hk; inversion Hk|intros [Hk _]; inversion Hk].
  - apply NoDup_cons in Hnd as [Hy Hnd]. rewrite removeName_cons.
    destruct (IH Hnd) as [IHnd IHin].
    destruct (String.eqb_spec y n) as [->|Hne].
    + split; [exact Hnd|]. intros k. rewrite elem_of_cons. split.
      * intros Hk. split; [auto|]. intros ->. contradiction.
      * intros [[->|Hk] Hkn]; [contradiction|exact Hk].
    + split.
      * apply NoDup_cons. split; [|exact IHnd].
        intros Hin. apply IHin in Hin as [Hin _]. contradiction.
      * intros k. rewrite !elem_of_cons, IHin. split.
        -- intros [->|[Hk Hkn]]; auto.
        -- intros [[->|Hk] Hkn]; auto.
Qed.

Lemma removeNames_spec (fields : list Field) :
  forall keys : list string,
    NoDup keys ->
    forall k,
      k ∈ fold_left (fun keys f => removeName (name f) keys) fields keys
      <-> k ∈ keys /\ k ∉ map name fields.
Proof.
  induction fields as [|f fields IH]; intros keys Hnd k; simpl.
  - split; [intros Hk; split; [exact Hk|intros Hin; inversion Hin]|tauto].
  - destruct (removeName_spec (name f) keys Hnd) as [Hnd' Hin'].
    rewrite (IH _ Hnd'), Hin', not_elem_of_cons. tauto.
Qed.

(** X1. In the result of a call that returns, [hasRequiredFields] is true
    exactly when every field of the schema that is required and not
    exempted has a truthy value in the body. *)
Theorem hasRequiredFields_iff (req : Request) (options : Options)
    (st : State) (r : SubmissionResult) (st' : State) :
  parseSubmission req options st = (Ok r, st') ->
  hasRequiredFields r = true <->
  (forall f, f ∈ schema options st ->
             required f = true ->
             exempted options f = false ->
             truthy (body_get req (name f)) = true).
Proof.
  intros E. apply parseSubmission_run in E as [Hr _]. rewrite Hr.
  rewrite forallb_forall. unfold missingRequired. split.
  - intros Hall f Hf Hreq Hex.
    apply list_elem_of_In in Hf. specialize (Hall f Hf).
    rewrite Hreq, Hex in Hall. simpl in Hall.
    destruct (truthy _); [reflexivity|discriminate].
  - intros Hall f Hf. apply list_elem_of_In in Hf. specialize (Hall f Hf).
    destruct (required f), (exempted options f); simpl;
      rewrite ?andb_false_r; auto.
    rewrite Hall by reflexivity. reflexivity.
Qed.

(** X2. In the result of a call that returns, [hasUnknownFields] is true
    exactly when the body has a key that no field of the schema (the
    caller's fields and the implicit ones) is named after. *)
Theorem hasUnknownFields_iff (req : Request) (options : Options)
    (st : State) (r : SubmissionResult) (st' : State) :
  parseSubmission req options st = (Ok r, st') ->
  hasUnknownFields r = true <->
  (exists k, is_Some (body req !! k) /\ k ∉ map name (schema options st)).
Proof.
  intros E. apply parseSubmission_run in E as (_ & Hu & _). rewrite Hu.
  pose proof (removeNames_spec (schema options st) _
                (NoDup_fst_map_to_list (body req))) as Hspec.
  assert (Hkeys : forall k, k ∈ (map_to_list (body req)).*1
                            <-> is_Some (body req !! k)).
  { intros k. rewrite list_elem_of_fmap. split.
    - intros ([k' v] & -> & Hin). apply elem_of_map_to_list in Hin. eauto.
    - intros [v Hv]. exists (k, v). split; [reflexivity|].
      apply elem_of_map_to_list. exact Hv. }
  destruct (fold_left _ _ _) as [|k rest] eqn:Hfold.
  - split; [discriminate|]. intros (k & Hk & Hn). exfalso.
    assert (Hin : k ∈ @nil string) by (apply Hspec; split; [apply Hkeys|]; auto).
    inversion Hin.
  - split; [|reflexivity]. intros _. exists k.
    assert (Hin : k ∈ k :: rest) by left.
    apply Hspec in Hin as [Hin Hn]. split; [apply Hkeys|]; auto.
Qed.

(** X3. The keys of [formValues] come from the schema: in a call that
    returns, every key of [formValues] is a key (or, for flat markdown,
    the [htmlKey]) of some field of the schema that is neither
    [skipValue] nor exempted.  No other property of the body reaches
    [formValues]. *)
Theorem formValues_keys_from_schema (req : Request) (options : Options)
    (st : State) (r : SubmissionResult) (st' : State) (k : string) :
  parseSubmission req options st = (Ok r, st') ->
  is_Some (formValues r !! k) ->
  exists f, f ∈ schema options st /\ k ∈ targets options f.
Proof.
  intros E Hk. apply parseSubmission_inv in E.
  destruct E as (st1 & vars & st2 & _ & Hfor & _ & Hfv & _).
  destruct (decide (Exists (fun f => k ∈ targets options f) (schema options st)))
    as [Hex|Hnone].
  - apply Exists_exists in Hex. exact Hex.
  - exfalso. rewrite <- Forall_Exists_neg, Forall_forall in Hnone.
    rewrite Hfv, (forOf_other_key req options k _ _ _ _ _ Hnone Hfor) in Hk.
    simpl in Hk. rewrite lookup_empty in Hk. destruct Hk as [v Hv]. discriminate.
Qed.

Lemma needMessages_bucket (req : Request) (options : Options)
    (fields : list Field) :
  Forall (fun m => fst m = "pageErrors") (needMessages req options fields).
Proof.
  unfold needMessages. apply Forall_forall. intros m Hm.
  apply list_elem_of_fmap in Hm as (f & -> & _). reflexivity.
Qed.

Lemma captchaMessages_bucket (req : Request) :
  Forall (fun m => fst m = "pageErrors") (captchaMessages req).
Proof.
  unfold captchaMessages, processCaptchaAnswer. unfold_eff.
  repeat (case_match; simpl in *; simplify_eq);
    repeat constructor.
Qed.

Lemma needMessages_nil (req : Request) (options : Options)
    (fields : list Field) :
  needMessages req options fields = []
  <-> forallb (fun f => negb (missingRequired req options f)) fields = true.
Proof.
  unfold needMessages. induction fields as [|f fields IH]; simpl.
  - tauto.
  - destruct (missingRequired req options f); simpl.
    + split; discriminate.
    + exact IH.
Qed.

(** X4. Whatever its outcome, a call only adds to the queue of flash
    messages, and everything it adds goes to the bucket "pageErrors".  So
    [req.flashHasErrors], which looks at the bucket "errors", answers
    after the call what it answered before. *)
Theorem parseSubmission_flashes_pageErrors (req : Request)
    (options : Options) (st : State) :
  (exists added,
      flashed (snd (parseSubmission req options st)) = flashed st ++ added
      /\ Forall (fun m => fst m = "pageErrors") added)
  /\ App.flashHasErrors (snd (parseSubmission req options st))
     = App.flashHasErrors st.
Proof.
  assert (Hadd : exists added,
      flashed (snd (parseSubmission req options st)) = flashed st ++ added
      /\ Forall (fun m => fst m = "pageErrors") added).
  { unfold parseSubmission. unfold bind. simpl. rewrite alter_at_end.
    destruct (captchaEnabled (formKey options)) eqn:Hc; simpl.
    - rewrite alter_at_end.
      match goal with
      | |- context [processCaptchaAnswer req ?s] => set (stp := s)
      end.
      pose proof (processCaptchaAnswer_arrays req stp) as Harr.
      pose proof (processCaptchaAnswer_flashed req stp) as Hcf.
      destruct (processCaptchaAnswer req stp) as [[b|e] st1]; simpl in *.
      + match goal with
        | |- context [forOf req options ?l ?v st1] =>
            destruct (forOf_flashed_prefix req options l v st1) as [done Hd];
            destruct (forOf req options l v st1) as [[vars|e] st2]
        end; simpl in *.
        * destruct (v_processedKeys vars); simpl; rewrite Hd, Hcf.
          -- exists (captchaMessages req ++ needMessages req options done).
             rewrite app_assoc. split; [reflexivity|].
             apply Forall_app.
             split; [apply captchaMessages_bucket|apply needMessages_bucket].
          -- exists (captchaMessages req ++ needMessages req options done
                     ++ [unexpectedMessage req]).
             rewrite <- !app_assoc. split; [reflexivity|].
             rewrite !Forall_app.
             split; [apply captchaMessages_bucket|].
             split; [apply needMessages_bucket|]. repeat constructor.
        * rewrite Hd, Hcf.
          exists (captchaMessages req ++ needMessages req options done).
          rewrite app_assoc. split; [reflexivity|].
          apply Forall_app.
          split; [apply captchaMessages_bucket|apply needMessages_bucket].
      + rewrite Hcf. exists (captchaMessages req).
        split; [reflexivity|apply captchaMessages_bucket].
    - unfold ret at 1.
      match goal with
      | |- context [forOf req options ?l ?v ?s] =>
          destruct (forOf_flashed_prefix req options l v s) as [done Hd];
          destruct (forOf req options l v s) as [[vars|e] st2]
      end; simpl in *.
      + destruct (v_processedKeys vars); simpl; rewrite Hd.
        * exists (needMessages req options done).
          split; [reflexivity|apply needMessages_bucket].
        * exists (needMessages req options done ++ [unexpectedMessage req]).
          rewrite <- !app_assoc. split; [reflexivity|].
          rewrite Forall_app. split; [apply needMessages_bucket|].
          repeat constructor.
      + rewrite Hd. exists (needMessages req options done).
        split; [reflexivity|apply needMessages_bucket]. }
  split; [exact Hadd|].
  destruct Hadd as (added & Heq & Hall).
  unfold App.flashHasErrors, App.flash_errors. rewrite Heq.
  rewrite List.filter_app.
  replace (List.filter _ added) with (@nil (string * string)).
  { rewrite app_nil_r. reflexivity. }
  clear Heq. induction added as [|m added IH]; [reflexivity|].
  apply Forall_cons in Hall as [Hm Hall]. simpl. rewrite Hm. simpl.
  apply IH. exact Hall.
Qed.

(** X5. What a returning call queues, in order: what the CAPTCHA check
    queued (when CAPTCHA is enabled), then one "need ..." message for
    each missing field in schema order, then "unexpected form data" when
    [hasUnknownFields] is true.  It queues nothing exactly when
    [hasRequiredFields] is true, [hasUnknownFields] is false and the
    CAPTCHA check queued nothing. *)
Theorem parseSubmission_queue (req : Request) (options : Options)
    (st : State) (r : SubmissionResult) (st' : State) :
  parseSubmission req options st = (Ok r, st') ->
  let captcha :=
    if captchaEnabled (formKey options) then captchaMessages req else [] in
  flashed st' =
    flashed st ++ captcha
    ++ needMessages req options (schema options st)
    ++ (if hasUnknownFields r then [unexpectedMessage req] else [])
  /\ (flashed st' = flashed st <->
      hasRequiredFields r = true /\ hasUnknownFields r = false /\ captcha = []).
Proof.
  intros E captcha. apply parseSubmission_run in E as (Hr & _ & Hq).
  fold captcha in Hq. split; [exact Hq|].
  rewrite Hq, Hr, <- needMessages_nil. split.
  - intros Heq. rewrite <- (app_nil_r (flashed st)) in Heq at 2.
    apply app_inv_head in Heq.
    apply app_eq_nil in Heq as [Hc Heq]. apply app_eq_nil in Heq as [Hn Hu].
    destruct (hasUnknownFields r); [discriminate|]. auto.
  - intros (Hn & Hu & Hc). rewrite Hn, Hu, Hc. simpl.
    apply app_nil_r.
Qed.

(** X6. When CAPTCHA is enabled and the body has no truthy answer, the
    CAPTCHA check itself queues nothing; the required-field check on the
    implicit [captcha-answer] field is what reports it.  Provided that
    field is not exempted, a returning call has [hasCorrectCaptcha]
    false, [hasRequiredFields] false, and the message for the missing
    [captcha-answer] in the queue. *)
Theorem missing_captcha_answer_is_reported (req : Request)
    (options : Options) (st : State) (r : SubmissionResult) (st' : State) :
  parseSubmission req options st = (Ok r, st') ->
  captchaEnabled (formKey options) = true ->
  truthy (body_get req "captcha-answer") = false ->
  exempted options captchaAnswerField = false ->
  hasCorrectCaptcha r = Some false
  /\ captchaMessages req = []
  /\ hasRequiredFields r = false
  /\ needMessage req captchaAnswerField ∈ flashed st'.
Proof.
  intros E Hen Hans Hex.
  assert (Hmiss : missingRequired req options captchaAnswerField = true).
  { unfold missingRequired. rewrite Hex. simpl. rewrite Hans. reflexivity. }
  assert (Hin : In captchaAnswerField (schema options st)).
  { unfold schema, implicitFields. rewrite Hen. apply in_or_app. right.
    simpl. auto. }
  pose proof (parseSubmission_inv _ _ _ _ _ E)
    as (st1 & vars & st2 & Hcap & _).
  rewrite Hen in Hcap. destruct Hcap as (b & Hp & Hb).
  apply parseSubmission_run in E as (Hr & _ & Hq).
  assert (Hsilent : forall s, processCaptchaAnswer req s = (Ok false, s)).
  { intros s. unfold processCaptchaAnswer. rewrite Hans. reflexivity. }
  rewrite Hsilent in Hp. inversion Hp; subst b.
  repeat split.
  - exact Hb.
  - unfold captchaMessages. rewrite Hsilent. reflexivity.
  - rewrite Hr. apply not_true_is_false. intros Hall.
    rewrite forallb_forall in Hall. specialize (Hall _ Hin).
    rewrite Hmiss in Hall. discriminate.
  - rewrite Hq. rewrite !elem_of_app. right. right. left.
    unfold needMessages. apply list_elem_of_fmap.
    exists captchaAnswerField. split; [reflexivity|].
    apply list_elem_of_In. apply filter_In. auto.
Qed.

Lemma processField_throws (req : Request) (options : Options) (f : Field)
    (vars : Vars) (st : State) :
  processable req options f = false ->
  exists msg, processField req options f vars st = (Throw (TypeError msg), st).
Proof.
  unfold processable, processField. intros Hp.
  destruct (exempted options f) eqn:Hex; simpl in *.
  { rewrite orb_true_r in Hp. discriminate. }
  rewrite orb_false_r in *.
  destruct (skipValue f); [discriminate|].
  destruct (negb (truthy (body_get req (name f))) && required f) eqn:Hreq;
    [discriminate|].
  unfold transform.
  destruct (type f), (flat f), (body_get req (name f)); try discriminate;
    unfold_eff; simpl; eauto.
Qed.

Lemma forOf_throws (req : Request) (options : Options) (fields : list Field) :
  forall (vars : Vars) (st : State),
    forallb (processable req options) fields = false ->
    exists msg st', forOf req options fields vars st = (Throw (TypeError msg), st').
Proof.
  induction fields as [|f fields IH]; intros vars st Hall; simpl in *.
  - discriminate.
  - unfold bind. destruct (processable req options f) eqn:Hf; simpl in Hall.
    + destruct (processField_returns req options f vars st Hf) as (v1 & s1 & E1).
      rewrite E1. apply IH. exact Hall.
    + destruct (processField_throws req options f vars st Hf) as (msg & E1).
      rewrite E1. eauto.
Qed.

(** X9. A call throws as soon as one field of the schema is not
    processable, that is, when the field is neither skipped nor stopped
    by the required check, its type is number, url, text or markdown,
    and the body holds no string for it: in particular on an optional
    field of such a type that the body leaves out. *)
Theorem unprocessable_field_makes_parseSubmission_throw (req : Request)
    (options : Options) (st : State) :
  forallb (processable req options) (schema options st) = false ->
  exists e st', parseSubmission req options st = (Throw e, st').
Proof.
  unfold schema, implicitFields, callerFields. intros Hall.
  unfold parseSubmission. unfold bind. simpl. rewrite alter_at_end.
  destruct (captchaEnabled (formKey options)) eqn:Hc; simpl.
  - rewrite alter_at_end, <- app_assoc. simpl.
    match goal with
    | |- context [processCaptchaAnswer req ?s] => set (stp := s)
    end.
    pose proof (processCaptchaAnswer_arrays req stp) as Harr.
    destruct (processCaptchaAnswer req stp) as [[b|e] st1] eqn:Hp;
      [|eauto].
    simpl in *. rewrite Harr, lookup_at_end. simpl.
    match goal with
    | |- context [forOf req options ?l ?v st1] =>
        destruct (forOf_throws req options l v st1 Hall) as (msg & st2 & Hf)
    end.
    rewrite Hf. eauto.
  - unfold ret at 1. rewrite lookup_at_end. simpl.
    match goal with
    | |- context [forOf req options ?l ?v ?s] =>
        destruct (forOf_throws req options l v s Hall) as (msg & st2 & Hf)
    end.
    rewrite Hf. eauto.
Qed.

(** X10. What the CAPTCHA check queues.  When it can run to its end
    (the answer is missing, or [captchas[id]] is falsy, or it is a
    captcha and the answer is a string) it returns and queues: nothing
    when the answer is missing and nothing when it returns true;
    "unknown captcha" when the answer is present and [captchas[id]] is
    falsy; "incorrect captcha answer" when [captchas[id]] is a captcha
    and the answer does not match.  In every other case it throws a
    TypeError and queues nothing. *)
Theorem processCaptchaAnswer_messages (req : Request) (st : State) :
  (captchaCheckable req = true ->
   exists b st',
     processCaptchaAnswer req st = (Ok b, st')
     /\ arrays st' = arrays st
     /\ flashed st' =
        flashed st ++
        (if negb (truthy (body_get req "captcha-answer")) then []
         else match captchaAt (body_get req "captcha-id") with
              | Falsy => [("pageErrors", i18n (locale req) "unknown captcha")]
              | Element _ =>
                  if b then []
                  else [("pageErrors",
                         i18n (locale req) "incorrect captcha answer")]
              | NotAnElement => []
              end))
  /\ (captchaCheckable req = false ->
      exists msg, processCaptchaAnswer req st = (Throw (TypeError msg), st)).
Proof.
  unfold processCaptchaAnswer, captchaCheckable.
  destruct (truthy (body_get req "captcha-answer")); simpl.
  2: { split; [|discriminate]. intros _. eexists false, st.
       rewrite app_nil_r. auto. }
  destruct (captchaAt (body_get req "captcha-id")) as [c| |].
  - destruct (body_get req "captcha-answer") as [| |b|n| |s|xs|props];
      (split; [|try discriminate; intros _; unfold_eff; simpl; eauto]);
      try discriminate.
    intros _. unfold_eff. simpl.
    destruct (String.eqb (toUpperCase (trim s)) _); simpl.
    + eexists true, st. rewrite app_nil_r. auto.
    + eexists false, _. auto.
  - split; [discriminate|]. intros _.
    destruct (body_get req "captcha-answer"); unfold_eff; simpl; eauto.
  - split; [|discriminate]. intros _. unfold_eff. simpl.
    eexists false, _. auto.
Qed.

(** X22. Whenever the CAPTCHA check returns, it returns true exactly
    when the answer is a nonempty string, [captchas[id]] is a captcha,
    and the trimmed answer equals the configured answer of that captcha
    up to case. *)
Theorem processCaptchaAnswer_returns_true_iff (req : Request) (st : State)
    (b : bool) (st' : State) :
  processCaptchaAnswer req st = (Ok b, st') ->
  (b = true <->
   exists c s,
     captchaAt (body_get req "captcha-id") = Element c
     /\ body_get req "captcha-answer" = JStr s
     /\ s <> EmptyString
     /\ toUpperCase (trim s)
        = toUpperCase (i18n (locale req) (answerKey c))).
Proof.
  unfold processCaptchaAnswer.
  destruct (truthy (body_get req "captcha-answer")) eqn:Ht; simpl.
  2: { unfold ret. intros E. inversion E; subst. split; [discriminate|].
       intros (c & s & _ & Hs & Hne & _). rewrite Hs in Ht. simpl in Ht.
       destruct (String.eqb_spec s EmptyString); [contradiction|discriminate]. }
  destruct (captchaAt (body_get req "captcha-id")) as [c| |].
  - destruct (body_get req "captcha-answer") as [| |x|n| |s|xs|props];
      unfold_eff; simpl; try discriminate.
    simpl in Ht.
    destruct (String.eqb_spec (toUpperCase (trim s))
                (toUpperCase (i18n (locale req) (answerKey c)))) as [Heq|Hneq];
      simpl; intros E; inversion E; subst.
    + split; [|reflexivity]. intros _. exists c, s. repeat split; auto.
      intros ->. discriminate.
    + split; [discriminate|].
      intros (c' & s' & Hc & Hs & _ & Heq). inversion Hc; inversion Hs; subst.
      contradiction.
  - destruct (body_get req "captcha-answer"); unfold_eff; simpl; discriminate.
  - unfold_eff. simpl. intros E. inversion E; subst. split; [discriminate|].
    intros (c & s & Hc & _). discriminate.
Qed.

(** The value an iteration leaves under a key is the final one when no
    later field assigns that key. *)
Lemma final_value (req : Request) (options : Options) (st : State)
    (r : SubmissionResult) (st' : State) (pre post : list Field) (f : Field)
    (k : string) (v : JsVal) :
  parseSubmission req options st = (Ok r, st') ->
  schema options st = pre ++ f :: post ->
  (forall vars st0 vars' st1,
      processField req options f vars st0 = (Ok vars', st1) ->
      v_formValues vars' !! k = Some v) ->
  (forall g, g ∈ post -> k ∉ targets options g) ->
  formValues r !! k = Some v.
Proof.
  intros E Hschema Hstep Hlater.
  apply parseSubmission_inv in E.
  destruct E as (st1 & vars & st2 & _ & Hfor & _ & Hfv & _).
  rewrite Hschema in Hfor. apply forOf_at_field in Hfor.
  destruct Hfor as (va & sa & vb & sb & _ & Hf & Hpost).
  rewrite Hfv, (forOf_other_key req options _ post _ _ _ _ Hlater Hpost).
  eapply Hstep. exact Hf.
Qed.

(** X7. A number, url or text field that is neither [skipValue] nor
    exempted, with a string value in the body (nonempty when the field is
    required), in a call that returns: unless a later field of the
    schema assigns the same key, the field's key holds [Number] of the
    trimmed value for a number, [encodeURI] of the normalized trimmed
    value for a url, and [{[language]: escaped trimmed value}] for a
    text. *)
Theorem scalar_field_values (req : Request) (options : Options)
    (st : State) (r : SubmissionResult) (st' : State)
    (pre post : list Field) (f : Field) (s : string) :
  parseSubmission req options st = (Ok r, st') ->
  schema options st = pre ++ f :: post ->
  skipValue f = false ->
  exempted options f = false ->
  body req !! name f = Some (JStr s) ->
  (required f = true -> s <> EmptyString) ->
  (forall g, g ∈ post -> field_key f ∉ targets options g) ->
  (type f = TNumber -> formValues r !! field_key f = Some (Number (trim s)))
  /\ (type f = TUrl ->
      formValues r !! field_key f
      = Some (JStr (encodeURI (urlUtils_normalize (trim s)))))
  /\ (type f = TText ->
      formValues r !! field_key f = Some (ml options (escapeHTML (trim s)))).
Proof.
  intros E Hschema Hskip Hex Hbody Hne Hlater.
  assert (Hreach : forall vars st0, exists keys,
    processField req options f vars st0 =
    (fv <- transform req options f (v_formValues vars) ;;
     ret {| v_hasRequiredFields := v_hasRequiredFields vars;
            v_formValues := fv;
            v_processedKeys := keys |}) st0).
  { intros vars st0.
    apply processField_reaches_transform; [assumption..|].
    intros Hr. rewrite (body_get_present req _ _ Hbody). simpl.
    destruct (String.eqb_spec s EmptyString) as [->|_]; [|reflexivity].
    exfalso. apply (Hne Hr). reflexivity. }
  repeat split; intros Hty;
    apply (final_value req options st r st' pre post f _ _ E Hschema);
    try exact Hlater;
    intros vars st0 vars' st1; destruct (Hreach vars st0) as [keys ->];
    unfold transform; rewrite Hty, (body_get_present req _ _ Hbody);
    unfold_eff; simpl; intros Hok; inversion Hok; subst; simpl;
    rewrite ?insert_insert_eq; apply lookup_insert_eq.
Qed.

(** X8. When CAPTCHA is enabled, the two implicit CAPTCHA fields are
    [required] but not [skipValue]: in a call that returns, a truthy
    [captcha-id] and a truthy [captcha-answer] of the body are copied
    unchanged into [formValues] (unless exempted), whatever the caller's
    schema is. *)
Theorem captcha_fields_reach_formValues (req : Request) (options : Options)
    (st : State) (r : SubmissionResult) (st' : State) :
  parseSubmission req options st = (Ok r, st') ->
  captchaEnabled (formKey options) = true ->
  (truthy (body_get req "captcha-id") = true ->
   exempted options captchaIdField = false ->
   formValues r !! "captcha-id" = Some (body_get req "captcha-id"))
  /\ (truthy (body_get req "captcha-answer") = true ->
      exempted options captchaAnswerField = false ->
      formValues r !! "captcha-answer" = Some (body_get req "captcha-answer")).
Proof.
  intros E Hen. split; intros Htr Hex.
  - apply (final_value req options st r st'
             (callerFields options st ++ [csrfField]) [captchaAnswerField]
             captchaIdField _ _ E).
    + unfold schema, implicitFields. rewrite Hen, <- app_assoc. reflexivity.
    + intros vars st0 vars' st1.
      destruct (processField_reaches_transform req options captchaIdField
                  vars st0 eq_refl Hex (fun _ => Htr)) as [keys ->].
      unfold transform. simpl. unfold_eff.
      intros Hok; inversion Hok; subst; simpl. apply lookup_insert_eq.
    + intros g Hg. apply list_elem_of_singleton in Hg as ->.
      unfold targets. simpl. destruct (exempted options captchaAnswerField).
      * intros Hin; inversion Hin.
      * intros Hin. apply list_elem_of_singleton in Hin. discriminate.
  - apply (final_value req options st r st'
             (callerFields options st ++ [csrfField; captchaIdField]) []
             captchaAnswerField _ _ E).
    + unfold schema, implicitFields. rewrite Hen, <- app_assoc. reflexivity.
    + intros vars st0 vars' st1.
      destruct (processField_reaches_transform req options captchaAnswerField
                  vars st0 eq_refl Hex (fun _ => Htr)) as [keys ->].
      unfold transform. simpl. unfold_eff.
      intros Hok; inversion Hok; subst; simpl. apply lookup_insert_eq.
    + intros g Hg. inversion Hg.
Qed.

Lemma digit_of_pretty_char (x : N) :
  (x < 10)%N -> digit_of (pretty_N_char x) = Some x.
Proof.
  intros Hx.
  assert (x = 0 \/ x = 1 \/ x = 2 \/ x = 3 \/ x = 4 \/ x = 5 \/ x = 6
          \/ x = 7 \/ x = 8 \/ x = 9)%N as Hcases by lia.
  repeat (destruct Hcases as [->|Hcases]; [reflexivity|]).
  subst. reflexivity.
Qed.

Lemma parse_pretty_go (x : N) :
  forall s, parse_digits 0%N (pretty_N_go x s) = parse_digits x s.
Proof.
  induction (N.lt_wf_0 x) as [x _ IH]. intros s.
  destruct (N.eq_dec x 0%N) as [->|Hx].
  - rewrite pretty_N_go_0. reflexivity.
  - assert (0 < x)%N as Hpos by lia.
    rewrite pretty_N_go_step by exact Hpos.
    rewrite IH by (apply N.div_lt; lia).
    cbn [parse_digits].
    rewrite digit_of_pretty_char by (apply N.mod_lt; lia).
    f_equal. rewrite (N.div_mod x 10) at 3 by lia. lia.
Qed.

Lemma pretty_go_nonempty (x : N) :
  forall s, s <> EmptyString -> pretty_N_go x s <> EmptyString.
Proof.
  induction (N.lt_wf_0 x) as [x _ IH]. intros s Hs.
  destruct (N.eq_dec x 0%N) as [->|Hx].
  - rewrite pretty_N_go_0. exact Hs.
  - rewrite pretty_N_go_step by lia.
    apply IH; [apply N.div_lt; lia|discriminate].
Qed.

(** The decimal form of an index is a key that addresses that index. *)
Lemma array_index_pretty (i : nat) : array_index (pretty i) = Some i.
Proof.
  unfold pretty, pretty_nat, pretty, pretty_N.
  destruct (decide (N.of_nat i = 0%N)) as [H0|Hne].
  - assert (i = 0) as -> by lia. reflexivity.
  - unfold array_index.
    destruct (pretty_N_go (N.of_nat i) EmptyString) eqn:Hp.
    + exfalso. assert (0 < N.of_nat i)%N as Hpos by lia.
      rewrite pretty_N_go_step in Hp by exact Hpos.
      revert Hp. apply pretty_go_nonempty. discriminate.
    + rewrite <- Hp, parse_pretty_go. cbn [parse_digits].
      unfold pretty, pretty_N.
      destruct (decide (N.of_nat i = 0%N)); [contradiction|].
      rewrite String.eqb_refl, Nat2N.id. reflexivity.
Qed.

(** X11. A captcha handed out can be passed.  When [getQuestionCaptcha]
    returns captcha [c] under id [i] for a form, CAPTCHA is enabled for
    that form, and a submission that sends [i] in decimal together with
    a nonempty answer that equals the configured answer after trimming
    and upper-casing makes [processCaptchaAnswer] return true and queue
    nothing. *)
Theorem issued_captcha_can_be_passed (formKey : option string) (draw i : nat)
    (c : Captcha) (req : Request) (s : string) (st : State) :
  getQuestionCaptcha draw formKey = Some (i, Some c) ->
  body req !! "captcha-id" = Some (JStr (pretty i)) ->
  body req !! "captcha-answer" = Some (JStr s) ->
  s <> EmptyString ->
  toUpperCase (trim s) = toUpperCase (i18n (locale req) (answerKey c)) ->
  captchaEnabled formKey = true
  /\ processCaptchaAnswer req st = (Ok true, st).
Proof.
  unfold getQuestionCaptcha. intros Hget Hid Hans Hne Heq.
  destruct (captchaEnabled formKey); [|discriminate].
  inversion Hget; subst draw. split; [reflexivity|].
  unfold processCaptchaAnswer.
  rewrite (body_get_present req _ _ Hid), (body_get_present req _ _ Hans).
  simpl. destruct (String.eqb_spec s EmptyString) as [->|_]; [contradiction|].
  simpl. unfold captchaAt, array_get. simpl. rewrite array_index_pretty.
  match goal with H : _ !! i = Some c |- _ => rewrite H end.
  unfold_eff. simpl. rewrite Heq, String.eqb_refl. reflexivity.
Qed.

End More.

(** ** The further theorems at the sample review form *)

Section Samples.
Import Sample.

Ltac run_it := vm_compute; reflexivity.

Ltac not_in_list :=
  let Hin := fresh "Hin" in
  vm_compute; intros Hin;
  repeat (apply elem_of_cons in Hin as [Hin|Hin]; [discriminate Hin|]);
  inversion Hin.

Ltac each_field Hg tac :=
  vm_compute in Hg;
  repeat (apply elem_of_cons in Hg as [->|Hg]; [tac|]);
  inversion Hg.

(** The sample submission has every required field. *)
Lemma hasRequiredFields_iff_witness :
  hasRequiredFields (resultOf reviewRun) = true <->
  (forall f, f ∈ schema reviewOptions reviewState ->
             required f = true ->
             exempted reviewOptions f = false ->
             truthy (body_get reviewRequest (name f)) = true).
Proof.
  apply (hasRequiredFields_iff reviewRequest reviewOptions reviewState
           (resultOf reviewRun) (snd reviewRun)).
  run_it.
Defined.

(** The submission with "is-admin" is flagged. *)
Lemma hasUnknownFields_iff_witness :
  hasUnknownFields (resultOf surplusRun) = true
  /\ (hasUnknownFields (resultOf surplusRun) = true <->
      exists k, is_Some (body surplusRequest !! k)
                /\ k ∉ map name (schema reviewOptions reviewState)).
Proof.
  split; [run_it|].
  apply (hasUnknownFields_iff surplusRequest reviewOptions reviewState
           (resultOf surplusRun) (snd surplusRun)).
  run_it.
Defined.

(** The title in [formValues] comes from a field of the schema. *)
Lemma formValues_keys_from_schema_witness :
  exists f, f ∈ schema reviewOptions reviewState
            /\ "title" ∈ targets reviewOptions f.
Proof.
  apply (formValues_keys_from_schema surplusRequest reviewOptions reviewState
           (resultOf surplusRun) (snd surplusRun) "title").
  - run_it.
  - vm_compute. eauto.
Defined.

(** The submission with "is-admin" queues one message. *)
Lemma parseSubmission_queue_witness :
  flashed (snd surplusRun) = [unexpectedMessage surplusRequest]
  /\ (flashed (snd surplusRun) = flashed reviewState <->
      hasRequiredFields (resultOf surplusRun) = true
      /\ hasUnknownFields (resultOf surplusRun) = false
      /\ (if captchaEnabled (formKey reviewOptions)
          then captchaMessages surplusRequest else []) = []).
Proof.
  split; [run_it|].
  exact (proj2 (@parseSubmission_queue externals surplusRequest reviewOptions reviewState
                  (resultOf surplusRun) (snd surplusRun) ltac:(run_it))).
Defined.

(** The submission without an answer to the captcha. *)
Lemma missing_captcha_answer_is_reported_witness :
  hasCorrectCaptcha (resultOf unansweredRun) = Some false
  /\ captchaMessages unansweredRequest = []
  /\ hasRequiredFields (resultOf unansweredRun) = false
  /\ needMessage unansweredRequest captchaAnswerField ∈ flashed (snd unansweredRun).
Proof.
  apply (missing_captcha_answer_is_reported unansweredRequest reviewOptions
           reviewState (resultOf unansweredRun) (snd unansweredRun)); run_it.
Defined.

(** The title of the sample submission is a text field. *)
Lemma scalar_field_values_witness :
  formValues (resultOf reviewRun) !! "title"
  = Some (JObj [("en", JStr "Tom &amp; Jerry")]).
Proof.
  refine (proj2 (proj2
    (scalar_field_values reviewRequest reviewOptions reviewState
       (resultOf reviewRun) (snd reviewRun) []
       (textField :: recommendField :: summaryField
          :: implicitFields reviewOptions)
       titleField " Tom & Jerry " _ _ _ _ _ _ _)) _);
    try reflexivity; try run_it; try discriminate.
  intros g Hg. each_field Hg not_in_list.
Defined.

(** The sample submission answers the captcha. *)
Lemma captcha_fields_reach_formValues_witness :
  formValues (resultOf reviewRun) !! "captcha-id" = Some (JStr "0")
  /\ formValues (resultOf reviewRun) !! "captcha-answer" = Some (JStr " paris ").
Proof.
  destruct (@captcha_fields_reach_formValues externals reviewRequest reviewOptions
              reviewState (resultOf reviewRun) (snd reviewRun)
              ltac:(run_it) ltac:(run_it)) as [Hid Hanswer].
  split; [apply Hid|apply Hanswer]; run_it.
Defined.

(** The body with only the CSRF token leaves out the optional summary
    of the sample form. *)
Lemma unprocessable_field_makes_parseSubmission_throw_witness :
  exists e st',
    parseSubmission tokenOnlyRequest reviewOptions reviewState = (Throw e, st').
Proof.
  apply (unprocessable_field_makes_parseSubmission_throw tokenOnlyRequest
           reviewOptions reviewState).
  run_it.
Defined.

(** The sample answer is right, so nothing is queued; with "length" as
    the id the check throws. *)
Lemma processCaptchaAnswer_messages_witness :
  (exists b st',
    processCaptchaAnswer reviewRequest reviewState = (Ok b, st')
    /\ arrays st' = arrays reviewState
    /\ flashed st' =
       flashed reviewState ++
       (if negb (truthy (body_get reviewRequest "captcha-answer")) then []
        else match captchaAt (body_get reviewRequest "captcha-id") with
             | Falsy =>
                 [("pageErrors", i18n (locale reviewRequest) "unknown captcha")]
             | Element _ =>
                 if b then []
                 else [("pageErrors",
                        i18n (locale reviewRequest) "incorrect captcha answer")]
             | NotAnElement => []
             end))
  /\ (exists msg,
        processCaptchaAnswer lengthRequest reviewState
        = (Throw (TypeError msg), reviewState)).
Proof.
  split.
  - apply (proj1 (processCaptchaAnswer_messages reviewRequest reviewState)).
    run_it.
  - apply (proj2 (processCaptchaAnswer_messages lengthRequest reviewState)).
    run_it.
Defined.

(** The sample submission answers captcha 0 with " paris ". *)
Lemma processCaptchaAnswer_returns_true_iff_witness :
  true = true <->
  exists c s,
    captchaAt (body_get reviewRequest "captcha-id") = Element c
    /\ body_get reviewRequest "captcha-answer" = JStr s
    /\ s <> EmptyString
    /\ toUpperCase (trim s)
       = toUpperCase (i18n (locale reviewRequest) (answerKey c)).
Proof.
  apply (processCaptchaAnswer_returns_true_iff reviewRequest reviewState true
           reviewState).
  run_it.
Defined.

(** Captcha 0 of the sample configuration, answered " paris ". *)
Lemma issued_captcha_can_be_passed_witness :
  captchaEnabled (Some "new-review") = true
  /\ processCaptchaAnswer reviewRequest reviewState = (Ok true, reviewState).
Proof.
  apply (issued_captcha_can_be_passed (Some "new-review") 0 0
           {| questionKey := "capital of france";
              answerKey := "capital of france answer" |}
           reviewRequest " paris " reviewState);
    try run_it; discriminate.
Defined.

End Samples.

End FormsExtra.

(** * Further properties of the dispatcher *)

Module FormHandlerExtra.
Import FormHandler FormHandlerFacts.

Section Dispatch.

(** What [execute] does after the two configuration guards. *)
Lemma execute_configured (h : FormHandler) (spec : ActionSpec)
    (handler : VerbHandler) (r : Run) :
  actions_get (actions h) (action h) = Some spec ->
  verb spec (method h) = Some handler ->
  execute h r =
  (mayProceed <- runChecks h (preFlightChecks spec) 0 true ;;
   if negb mayProceed then ret tt else dispatch h spec handler) r.
Proof. intros Hs Hv. unfold execute. rewrite Hs, Hv. reflexivity. Qed.

Lemma onRejected_settles (h : FormHandler) (error : JsError) (r : Run) :
  onRejected h error r =
  (Ok tt, {| calls := calls r; world := settled h error (world r) |}).
Proof.
  unfold onRejected, settled, isNotFound.
  destruct (String.eqb _ _ || String.eqb _ _); reflexivity.
Qed.


(** X13. A rejected promise is settled by its error alone.  An error
    named DocumentNotFoundError, or with the message "deleted", sets
    status 404 and renders the not-found page; any other error is passed
    to [next] and nothing is rendered.  The verb handler and the
    permission check are not called. *)
Theorem rejected_load_is_settled (h : FormHandler) (w : World)
    (spec : ActionSpec) (handler : VerbHandler) (configured load : Loader)
    (r1 : Run) (error : JsError) (w2 : World) :
  actions_get (actions h) (action h) = Some spec ->
  verb spec (method h) = Some handler ->
  loadData spec = Some configured ->
  this_loadData h = Some load ->
  runChecks h (preFlightChecks spec) 0 true (start w) = (Ok true, r1) ->
  load (world r1) = (Ok (Rejected error), w2) ->
  execute h (start w) =
  (Ok tt,
   {| calls := calls r1 ++ [CallLoad];
      world := if isNotFound error then notFoundPage h w2
               else passedOn error w2 |}).
Proof.
  intros Hs Hv Hl Ht Hc Hp.
  rewrite (execute_configured h spec handler _ Hs Hv).
  unfold bind at 1. rewrite Hc. simpl.
  unfold dispatch. rewrite Hl, Ht. unfold bind at 1, invoke at 1.
  rewrite Hp. simpl. rewrite onRejected_settles. reflexivity.
Qed.


(** X15. An exception thrown by the verb handler leaves [execute] in two
    different ways.  For an action without a loader the handler is called
    with no argument and its exception is thrown by [execute].  For an
    action with a loader, whether the handler is reached through a
    permission check that returned true or without a permission check,
    it is caught: [execute] returns, and the error is passed to [next],
    or rendered as the not-found page when it is named
    DocumentNotFoundError or carries the message "deleted". *)
Theorem handler_exception_paths (h : FormHandler) (w : World)
    (spec : ActionSpec) (handler : VerbHandler) (r1 : Run) :
  actions_get (actions h) (action h) = Some spec ->
  verb spec (method h) = Some handler ->
  runChecks h (preFlightChecks spec) 0 true (start w) = (Ok true, r1) ->
  (loadData spec = None ->
   forall res w2,
     handler None (world r1) = (res, w2) ->
     execute h (start w) =
     (res, {| calls := calls r1 ++ [CallVerb None]; world := w2 |}))
  /\ (forall configured load d w2 e w3,
         loadData spec = Some configured ->
         this_loadData h = Some load ->
         load (world r1) = (Ok (Resolved (Some d)), w2) ->
         _revDeleted d = false ->
         resourcePermissionCheck spec = None ->
         handler (Some d) w2 = (Throw e, w3) ->
         execute h (start w) =
         (Ok tt, {| calls := calls r1 ++ [CallLoad; CallVerb (Some d)];
                    world := settled h e w3 |}))
  /\ (forall configured load d w2 c w3 e w4,
         loadData spec = Some configured ->
         this_loadData h = Some load ->
         load (world r1) = (Ok (Resolved (Some d)), w2) ->
         _revDeleted d = false ->
         resourcePermissionCheck spec = Some c ->
         run_permissionCheck h c d w2 = (Ok true, w3) ->
         handler (Some d) w3 = (Throw e, w4) ->
         execute h (start w) =
         (Ok tt, {| calls := calls r1 ++ [CallLoad; CallPermissionCheck;
                                          CallVerb (Some d)];
                    world := settled h e w4 |})).
Proof.
  intros Hs Hv Hc. repeat split.
  - intros Hl res w2 Hh.
    rewrite (execute_configured h spec handler _ Hs Hv).
    unfold bind at 1. rewrite Hc. simpl.
    unfold dispatch. rewrite Hl. unfold invoke. rewrite Hh. reflexivity.
  - intros configured load d w2 e w3 Hl Ht Hp Hd Hperm Hh.
    rewrite (execute_configured h spec handler _ Hs Hv).
    unfold bind at 1. rewrite Hc. simpl.
    unfold dispatch. rewrite Hl, Ht. unfold bind at 1, invoke at 1.
    rewrite Hp. simpl. unfold catch, onFulfilled. rewrite Hd, Hperm.
    unfold bind, ret, invoke. simpl. rewrite Hh. simpl.
    rewrite onRejected_settles. simpl. rewrite <- app_assoc. reflexivity.
  - intros configured load d w2 c w3 e w4 Hl Ht Hp Hd Hperm Hrun Hh.
    rewrite (execute_configured h spec handler _ Hs Hv).
    unfold bind at 1. rewrite Hc. simpl.
    unfold dispatch. rewrite Hl, Ht. unfold bind at 1, invoke at 1.
    rewrite Hp. simpl. unfold catch, onFulfilled. rewrite Hd, Hperm.
    unfold bind, invoke. simpl. rewrite Hrun. simpl. rewrite Hh. simpl.
    rewrite onRejected_settles. simpl. rewrite <- !app_assoc. reflexivity.
Qed.

(** X16. "By default, all operations require being logged in": for an
    action whose pre-flight checks are the ones the constructor gives
    it, [userIsSignedIn] of the class alone, a request without a user
    that passes the two configuration guards is answered by the sign-in
    page alone, under the title key of the action.  The check is called,
    the loader and the verb handler are not, and [execute] returns. *)
Theorem anonymous_request_gets_signin_page (h : FormHandler) (w : World)
    (spec : ActionSpec) (handler : VerbHandler) :
  actions_get (actions h) (action h) = Some spec ->
  verb spec (method h) = Some handler ->
  preFlightChecks spec = [userIsSignedIn] ->
  user w = None ->
  execute h (start w) =
  (Ok tt,
   {| calls := [CallCheck 0 (Some false)];
      world :=
        {| user := None;
           status := status w;
           rendered :=
             rendered w ++
             [SigninRequired {| ctx_titleKey := titleKey spec; ctx_id := None;
                                ctx_detailsKey := None |}];
           forwarded := forwarded w |} |}).
Proof.
  intros Hs Hv Hchecks Hu.
  rewrite (execute_configured h spec handler _ Hs Hv).
  rewrite Hchecks. simpl. unfold bind at 1 2, invoke. simpl.
  unfold run_userIsSignedIn. rewrite Hu.
  unfold current_titleKey. rewrite Hs.
  unfold bind, ret, render. simpl. rewrite Hu. reflexivity.
Qed.

Lemma runChecks_app (h : FormHandler) (l1 l2 : list Check) :
  forall (i : nat) (mayProceed : bool) (r : Run),
    runChecks h (l1 ++ l2) i mayProceed r =
    (m <- runChecks h l1 i mayProceed ;;
     runChecks h l2 (i + length l1) m) r.
Proof.
  induction l1 as [|c l1 IH]; intros i mp r; simpl.
  - unfold bind, ret. rewrite Nat.add_0_r. reflexivity.
  - unfold bind in *.
    destruct (invoke _ (run_check h c) r) as [[b|e] r1]; [|reflexivity].
    rewrite IH. replace (S i + length l1) with (i + S (length l1)) by lia.
    reflexivity.
Qed.




(** X23. A pre-flight check that throws ends [execute] with its
    exception.  When the checks before it all return, they have been
    called, each once and in order; the throwing check is the last call:
    the checks after it, the loader and the verb handler are not called,
    and the request and the response stay as the throwing check left
    them. *)
Theorem throwing_check_ends_execute (h : FormHandler) (w : World)
    (spec : ActionSpec) (handler : VerbHandler) (pre post : list Check)
    (check : Check) (results : list bool) (w1 w2 : World) (e : JsError) :
  actions_get (actions h) (action h) = Some spec ->
  verb spec (method h) = Some handler ->
  preFlightChecks spec = pre ++ check :: post ->
  Checked h pre w results w1 ->
  run_check h check w1 = (Throw e, w2) ->
  execute h (start w) =
  (Throw e,
   {| calls := check_calls 0 results ++ [CallCheck (length pre) None];
      world := w2 |}).
Proof.
  intros Hs Hv Hchecks Hpre Hthrow.
  rewrite (execute_configured h spec handler _ Hs Hv).
  rewrite Hchecks. unfold bind at 1. rewrite runChecks_app. unfold bind at 1.
  rewrite (runChecks_Checked h pre 0 true (start w) results w1 Hpre).
  simpl. unfold bind, invoke. simpl. rewrite Hthrow. reflexivity.
Qed.


End Dispatch.

(** ** The further theorems at the sample handlers *)

Section Samples.
Import Sample.


(** The database is down: the error goes to [next]. *)
Lemma rejected_load_is_settled_witness :
  execute (editWith loadFails showForm) (start signedIn) =
  (Ok tt,
   {| calls := [CallCheck 0 (Some true); CallLoad];
      world := passedOn databaseDown signedIn |}).
Proof.
  exact (rejected_load_is_settled (editWith loadFails showForm) signedIn
           (edit (actions (editWith loadFails showForm))) showForm
           loadFails loadFails checked databaseDown signedIn
           eq_refl eq_refl eq_refl eq_refl eq_refl eq_refl).
Defined.


(** The same exception, thrown by the create form and by the edit form,
    without and with a permission check. *)
Lemma handler_exception_paths_witness :
  fst (execute crashingCreate (start signedIn)) = Throw (Error "template missing")
  /\ execute (editFreely loadOwn crash) (start signedIn) =
     (Ok tt,
      {| calls := [CallCheck 0 (Some true); CallLoad; CallVerb (Some ownReview)];
         world := passedOn (Error "template missing") signedIn |})
  /\ execute (editWith loadOwn crash) (start signedIn) =
     (Ok tt,
      {| calls := [CallCheck 0 (Some true); CallLoad; CallPermissionCheck;
                   CallVerb (Some ownReview)];
         world := passedOn (Error "template missing") signedIn |}).
Proof.
  split; [|split].
  - rewrite (proj1
      (handler_exception_paths crashingCreate signedIn
         (create (actions crashingCreate)) crash checked
         eq_refl eq_refl eq_refl)
      eq_refl (Throw (Error "template missing")) signedIn eq_refl).
    reflexivity.
  - exact (proj1 (proj2
      (handler_exception_paths (editFreely loadOwn crash) signedIn
         (edit (actions (editFreely loadOwn crash))) crash checked
         eq_refl eq_refl eq_refl))
      loadOwn loadOwn ownReview signedIn (Error "template missing") signedIn
      eq_refl eq_refl eq_refl eq_refl eq_refl eq_refl).
  - exact (proj2 (proj2
      (handler_exception_paths (editWith loadOwn crash) signedIn
         (edit (actions (editWith loadOwn crash))) crash checked
         eq_refl eq_refl eq_refl))
      loadOwn loadOwn ownReview signedIn userCanEdit' signedIn
      (Error "template missing") signedIn
      eq_refl eq_refl eq_refl eq_refl eq_refl eq_refl eq_refl).
Defined.

(** An anonymous visitor asks for the form to create a review. *)
Lemma anonymous_request_gets_signin_page_witness :
  execute (reviewHandler "create" Get None) (start anonymous) =
  (Ok tt,
   {| calls := [CallCheck 0 (Some false)];
      world :=
        {| user := None;
           status := None;
           rendered :=
             [SigninRequired {| ctx_titleKey := Some "new review";
                                ctx_id := None;
                                ctx_detailsKey := None |}];
           forwarded := [] |} |}).
Proof.
  exact (anonymous_request_gets_signin_page (reviewHandler "create" Get None)
           anonymous
           (create (actions (reviewHandler "create" Get None)))
           showForm eq_refl eq_refl eq_refl eq_refl).
Defined.


(** The second of three checks cannot reach the session store. *)
Lemma throwing_check_ends_execute_witness :
  execute guardedCreate (start anonymous) =
  (Throw (Error "session store unavailable"),
   {| calls := check_calls 0 [false] ++ [CallCheck 1 None];
      world := snd (run_check guardedCreate userIsSignedIn anonymous) |}).
Proof.
  apply (throwing_check_ends_execute guardedCreate anonymous
           (create (actions guardedCreate)) showForm
           [userIsSignedIn] [alwaysPasses] brokenCheck [false]
           (snd (run_check guardedCreate userIsSignedIn anonymous))
           (snd (run_check guardedCreate userIsSignedIn anonymous))
           (Error "session store unavailable")).
  - reflexivity.
  - reflexivity.
  - reflexivity.
  - apply (Checked_cons guardedCreate userIsSignedIn [] anonymous
             (snd (run_check guardedCreate userIsSignedIn anonymous))
             (snd (run_check guardedCreate userIsSignedIn anonymous))
             false []); [reflexivity|apply Checked_nil].
  - reflexivity.
Defined.


End Samples.

End FormHandlerExtra.

(** * Properties of the error-handling middleware *)

Module AppExtra.
Import App.

Section Errors.


End Errors.

(** ** The theorem at two sample errors *)

Section Samples.
Import Sample.


End Samples.

End AppExtra.
